(** * Translation-workbook generators: classifier, deduplicator, grouping

    A shallow embedding of the decision logic of [generate_excel.py] and
    [generate_excel_simple.py]:

    - [_is_technical_string], the heuristic classifier (one per script,
      the two differ);
    - [clean_and_deduplicate_strings], the filtering and merging pass,
      which mutates the records of its input in place;
    - [organize_by_sheets], the grouping into category buckets.

    Python strings are embedded as [string]; a character [c : ascii] stands
    for the code point [N_of_ascii c], so the embedding covers texts over
    the code points U+0000 .. U+00FF.  The character tables below are those
    of CPython's [str] methods on that range. *)

From Stdlib Require Import NArith Ascii String.
From stdpp Require Import gmap strings list pretty.

Local Open Scope string_scope.

(** ** Python's [str] on code points below 256 *)

Module PyStr.

Definition ord (c : ascii) : N := N_of_ascii c.

Definition between (lo hi : N) (c : ascii) : bool :=
  ((lo <=? ord c) && (ord c <=? hi))%N.

(** [c.isupper()]: A-Z, and the Latin-1 capitals except the times sign. *)
Definition c_isupper (c : ascii) : bool :=
  between 65 90 c || between 192 214 c || between 216 222 c.

(** [c.islower()]: a-z, the ordinal indicators, micro, and the Latin-1
    small letters except the division sign. *)
Definition c_islower (c : ascii) : bool :=
  between 97 122 c || between 170 170 c || between 181 181 c
  || between 186 186 c || between 223 246 c || between 248 255 c.

(** [c.isalpha()] *)
Definition c_isalpha (c : ascii) : bool :=
  between 65 90 c || between 97 122 c || between 170 170 c
  || between 181 181 c || between 186 186 c || between 192 214 c
  || between 216 246 c || between 248 255 c.

(** [c.isspace()] *)
Definition c_isspace (c : ascii) : bool :=
  between 9 13 c || between 28 32 c || between 133 133 c
  || between 160 160 c.

(** [c.lower()]: every capital of the range is 32 below its small letter. *)
Definition c_lower (c : ascii) : ascii :=
  if c_isupper c then ascii_of_N (ord c + 32) else c.

(** [any(p(c) for c in s)] *)
Fixpoint any (p : ascii → bool) (s : string) : bool :=
  match s with
  | EmptyString => false
  | String c s' => p c || any p s'
  end.

(** [all(p(c) for c in s)] *)
Fixpoint all (p : ascii → bool) (s : string) : bool :=
  match s with
  | EmptyString => true
  | String c s' => p c && all p s'
  end.

(** [len(s)] *)
Definition len (s : string) : nat := String.length s.

(** [s[1:]] *)
Definition tail (s : string) : string :=
  match s with
  | EmptyString => EmptyString
  | String _ s' => s'
  end.

(** [s.lower()] *)
Fixpoint lower (s : string) : string :=
  match s with
  | EmptyString => EmptyString
  | String c s' => String (c_lower c) (lower s')
  end.

(** [s.isupper()]: some cased character, and every cased character is a
    capital. *)
Definition isupper (s : string) : bool :=
  any c_isupper s && negb (any c_islower s).

(** [s.isalpha()]: non-empty and all letters. *)
Definition isalpha (s : string) : bool :=
  negb (String.eqb s "") && all c_isalpha s.

(** [s.count(ch)] for a one-character pattern. *)
Fixpoint count (ch : ascii) (s : string) : nat :=
  match s with
  | EmptyString => 0
  | String c s' => (if Ascii.eqb c ch then 1 else 0) + count ch s'
  end.

Fixpoint lstrip (s : string) : string :=
  match s with
  | EmptyString => EmptyString
  | String c s' => if c_isspace c then lstrip s' else s
  end.

Fixpoint rstrip (s : string) : string :=
  match s with
  | EmptyString => EmptyString
  | String c s' =>
      match rstrip s' with
      | EmptyString => if c_isspace c then EmptyString else String c EmptyString
      | t => String c t
      end
  end.

(** [s.strip()] *)
Definition strip (s : string) : string := rstrip (lstrip s).

(** [s.startswith(p)] *)
Fixpoint startswith (p s : string) : bool :=
  match p, s with
  | EmptyString, _ => true
  | String _ _, EmptyString => false
  | String a p', String b s' => Ascii.eqb a b && startswith p' s'
  end.

(** [needle in hay] *)
Fixpoint contains (needle hay : string) : bool :=
  startswith needle hay
  || match hay with
     | EmptyString => false
     | String _ hay' => contains needle hay'
     end.

(** [s[:n]] *)
Fixpoint take (n : nat) (s : string) : string :=
  match n, s with
  | S n', String c s' => String c (take n' s')
  | _, _ => EmptyString
  end.

(** [s[n:]] *)
Fixpoint drop (n : nat) (s : string) : string :=
  match n, s with
  | S n', String _ s' => drop n' s'
  | _, _ => s
  end.

(** [s.endswith(p)] *)
Fixpoint endswith (p s : string) : bool :=
  String.eqb p s
  || match s with
     | EmptyString => false
     | String _ s' => endswith p s'
     end.

(** [c.isdigit()]: 0-9 and the superscripts two, three and one. *)
Definition c_isdigit (c : ascii) : bool :=
  between 48 57 c || between 178 179 c || between 185 185 c.

(** [s.isdigit()]: non-empty and all digits. *)
Definition isdigit (s : string) : bool :=
  negb (String.eqb s "") && all c_isdigit s.

(** [s.replace("", new)]: [new] before every character and at the end. *)
Fixpoint replace_empty (new s : string) : string :=
  match s with
  | EmptyString => new
  | String c s' => String.append new (String c (replace_empty new s'))
  end.

(** The scan of [s.replace(old, new)] for a non-empty [old]: the leftmost
    occurrence is replaced and the scan resumes after it; [skip] counts
    the characters of a replaced occurrence still to pass over. *)
Fixpoint replace_from (skip : nat) (old new s : string) : string :=
  match s with
  | EmptyString => EmptyString
  | String c s' =>
      match skip with
      | S k => replace_from k old new s'
      | O =>
          if startswith old s
          then String.append new (replace_from (len old - 1) old new s')
          else String c (replace_from 0 old new s')
      end
  end.

(** [s.replace(old, new)] *)
Definition replace (old new s : string) : string :=
  if String.eqb old "" then replace_empty new s
  else replace_from 0 old new s.

(** [f'{n:02d}'] for a count [n]: decimal, padded with a zero to two
    characters. *)
Definition format_02d (n : nat) : string :=
  let s := pretty n in
  if bool_decide (String.length s < 2) then String.append "0" s else s.

End PyStr.

(** ** Records and the object store *)

(** One entry of the [strings] array of [translation_strings.json]. *)
Record StringRecord : Type := mkRecord {
  text : string;
  screenContext : string;
  category : string;
  notes : string
}.

(** The records are Python dicts: [seen] and [cleaned] hold references to
    the very objects of the input list, and the merge writes through such
    a reference.  Objects live in a store and lists hold their identities. *)
Definition loc : Type := nat.
Definition key : Type := string * string.

(** [string_obj['screenContext'] += ...] on the object at [l] *)
Definition set_screenContext (ctx : string) (r : StringRecord) : StringRecord :=
  {| text := text r; screenContext := ctx;
     category := category r; notes := notes r |}.

(** [(text.lower().strip(), category)] *)
Definition dedup_key (r : StringRecord) : key :=
  (PyStr.strip (PyStr.lower (text r)), category r).

(** The local variables of the loop of [clean_and_deduplicate_strings],
    with the store they point into. *)
Record loop_state : Type := mkState {
  heap : gmap loc StringRecord;
  seen : gmap key loc;
  cleaned : list loc
}.

Section Deduplicator.

(** The classifier the script calls. *)
Variable _is_technical_string : string → bool.

(** One iteration of [for string_obj in strings_data].  [None] only for a
    reference to no object, which a Python list cannot hold. *)
Definition dedup_step (st : loop_state) (l : loc) : option loop_state :=
  string_obj ← heap st !! l;
  let screen := screenContext string_obj in
  if _is_technical_string (text string_obj) then Some st
  else
    let k := dedup_key string_obj in
    match seen st !! k with
    | None =>
        Some {| heap := heap st;
                seen := <[k := l]> (seen st);
                cleaned := cleaned st ++ [l] |}
    | Some e =>
        existing ← heap st !! e;
        if PyStr.contains screen (screenContext existing) then Some st
        else
          Some {| heap := <[e := set_screenContext
                                   (screenContext existing ++ "; " ++ screen)
                                   existing]> (heap st);
                  seen := seen st;
                  cleaned := cleaned st |}
    end.

Fixpoint dedup_loop (st : loop_state) (strings_data : list loc)
  : option loop_state :=
  match strings_data with
  | [] => Some st
  | l :: rest => st' ← dedup_step st l; dedup_loop st' rest
  end.

(** [clean_and_deduplicate_strings(strings_data)]: the store after the
    call and the returned list [cleaned]. *)
Definition clean_and_deduplicate_strings
    (h : gmap loc StringRecord) (strings_data : list loc)
  : option (gmap loc StringRecord * list loc) :=
  st ← dedup_loop {| heap := h; seen := ∅; cleaned := [] |} strings_data;
  Some (heap st, cleaned st).

End Deduplicator.

(** The records a list of references denotes in a store. *)
Definition records (h : gmap loc StringRecord) (ls : list loc)
  : list StringRecord :=
  omap (λ l, h !! l) ls.

(** A freshly loaded JSON array: one new object per element. *)
Definition load (rs : list StringRecord) : gmap loc StringRecord * list loc :=
  (list_to_map (zip (seq 0 (length rs)) rs), seq 0 (length rs)).

(** ** Grouping into sheets *)

Record Row : Type := mkRow {
  English_Text : string;
  Screen_Context : string;
  Notes : string
}.

Inductive exn : Type :=
  | KeyError (k : string).

Definition category_order : list string :=
  [ "Authentication"; "Profile & Settings"; "Race Management";
    "Active Races"; "Social Features"; "Leaderboard & Stats";
    "Home & Navigation"; "Dialogs & Popups"; "Subscription/Premium";
    "Errors & Validation"; "Admin Dashboard"; "Common/Shared" ].

Definition row_of (string_obj : StringRecord) : Row :=
  {| English_Text := text string_obj;
     Screen_Context := screenContext string_obj;
     Notes := notes string_obj |}.

(** [for category in category_order: sheets_data[category] = []] *)
Definition empty_sheets : gmap string (list Row) :=
  foldl (λ sheets_data c, <[c := []]> sheets_data) ∅ category_order.

(** [sheets_data[category].append({...})]: the subscript of a plain dict
    raises [KeyError] on a key it does not hold. *)
Definition organize_step (sheets_data : gmap string (list Row))
    (string_obj : StringRecord) : exn + gmap string (list Row) :=
  match sheets_data !! category string_obj with
  | None => inl (KeyError (category string_obj))
  | Some rows =>
      inr (<[category string_obj := (rows ++ [row_of string_obj])%list]> sheets_data)
  end.

Fixpoint organize_loop (sheets_data : gmap string (list Row))
    (strings_data : list StringRecord) : exn + gmap string (list Row) :=
  match strings_data with
  | [] => inr sheets_data
  | string_obj :: rest =>
      match organize_step sheets_data string_obj with
      | inl e => inl e
      | inr sheets_data' => organize_loop sheets_data' rest
      end
  end.

(** [organize_by_sheets(strings_data)], the same text in both scripts. *)
Definition organize_by_sheets (strings_data : list StringRecord)
  : exn + gmap string (list Row) :=
  organize_loop empty_sheets strings_data.

(** ** Report data *)

(** The [metadata] object of [translation_strings.json]. *)
Record Metadata : Type := mkMetadata {
  extractedAt : string;
  totalStrings : Z;
  filesProcessed : Z
}.

(** The document [load_strings_data] returns. *)
Record Data : Type := mkData {
  metadata : Metadata;
  strings : list StringRecord
}.

(** A value in a row of a summary: a string or an integer. *)
Inductive cell : Type :=
  | Str (s : string)
  | Int (n : Z).

(** [data['metadata']['totalStrings'] = n] *)
Definition set_totalStrings (n : Z) (m : Metadata) : Metadata :=
  {| extractedAt := extractedAt m; totalStrings := n;
     filesProcessed := filesProcessed m |}.

(** [sheets_data.items()] on the dict [organize_by_sheets] returns: a dict
    iterates in insertion order, the twelve keys were inserted in
    [category_order], and appending to a bucket moves no key. *)
Definition items (sheets_data : gmap string (list Row))
  : list (string * list Row) :=
  omap (λ c, (λ rows, (c, rows)) <$> sheets_data !! c) category_order.

(** [if strings:] on a list *)
Definition nonempty {A} (l : list A) : bool :=
  match l with [] => false | _ => true end.

(** [len(strings)] as a cell *)
Definition len_cell {A} (l : list A) : cell := Int (Z.of_nat (length l)).

(** A sheet or file of rows, under its name. *)
Record Table : Type := mkTable {
  table_name : string;
  table_header : list string;
  table_rows : list Row
}.

Definition columns : list string := ["English Text"; "Screen/Context"; "Notes"].

(** What a run of a generator leaves behind: the returned list, the
    buckets, the metadata as updated, the rows of the summary and the
    category tables. *)
Record Report : Type := mkReport {
  report_cleaned : list StringRecord;
  report_sheets : gmap string (list Row);
  report_metadata : Metadata;
  report_summary : list (list cell);
  report_tables : list Table
}.

(** ** The two classifiers *)

Module generate_excel.

Definition technical_keywords : list string :=
  [ "widget"; "controller"; "service"; "model"; "provider";
    "firebase"; "firestore"; "collection"; "document";
    ".dart"; ".json"; "toString"; "override"; "async";
    "await"; "class"; "extends"; "implements"; "void";
    "String"; "int"; "bool"; "double"; "List"; "Map";
    "setState"; "initState"; "dispose"; "build" ].

Definition _is_technical_string (text : string) : bool :=
  let lower_text := PyStr.lower text in
  if existsb (λ keyword, PyStr.contains keyword lower_text)
       technical_keywords
  then true
  else if PyStr.any PyStr.c_isupper (PyStr.tail text)
          && negb (PyStr.any PyStr.c_isspace text)
  then true
  else if bool_decide (1 < PyStr.count "_" text)
  then true
  else if bool_decide (PyStr.len text < 3) && negb (PyStr.isalpha text)
  then true
  else false.

Definition clean_and_deduplicate_strings :=
  clean_and_deduplicate_strings _is_technical_string.

(** The rows [create_summary_sheet] hands to the Summary sheet. *)
Definition create_summary_sheet (sheets_items : list (string * list Row))
    (metadata : Metadata) : list (list cell) :=
  [ [Str "StepzSync Translation Summary"; Str ""];
    [Str ""; Str ""];
    [Str "Extraction Date:"; Str (PyStr.take 10 (extractedAt metadata))];
    [Str "Total Strings Found:"; Int (totalStrings metadata)];
    [Str "Files Processed:"; Int (filesProcessed metadata)];
    [Str ""; Str ""];
    [Str "Strings by Category:"; Str "Count"] ]
  ++ ((λ '(category, strings), [Str category; len_cell strings])
        <$> sheets_items)
  ++ [ [Str ""; Str ""];
       [Str "Translation Progress:"; Str ""];
       [Str "This section can be updated as translation progresses"; Str ""];
       [Str ""; Str ""];
       [Str "Category"; Str "Total"; Str "Translated"; Str "Progress %"] ]
  ++ ((λ '(category, strings),
         [Str category; len_cell strings; Int 0; Str "0%"])
        <$> sheets_items).

(** The category sheets of [create_excel_workbook]: one per bucket that
    holds data, named by the first 31 characters of the category. *)
Fixpoint category_sheets (sheets_items : list (string * list Row))
  : list Table :=
  match sheets_items with
  | [] => []
  | (sheet_name, strings) :: rest =>
      if nonempty strings
      then {| table_name := PyStr.take 31 sheet_name;
              table_header := columns;
              table_rows := strings |} :: category_sheets rest
      else category_sheets rest
  end.

(** [main()], as far as data flows: load, clean, group, count, write the
    Summary and the category sheets.  The console, the constant
    Instructions sheet and the styling are left out.  [None] stands for no
    run of the script (see [dedup_step]). *)
Definition main (data : Data) : option (exn + Report) :=
  let '(h, strings_data) := load (strings data) in
  '(h', out) ← clean_and_deduplicate_strings h strings_data;
  let cleaned_strings := records h' out in
  match organize_by_sheets cleaned_strings with
  | inl e => Some (inl e)
  | inr sheets_data =>
      let metadata :=
        set_totalStrings (Z.of_nat (length cleaned_strings)) (metadata data) in
      Some (inr {| report_cleaned := cleaned_strings;
                   report_sheets := sheets_data;
                   report_metadata := metadata;
                   report_summary :=
                     create_summary_sheet (items sheets_data) metadata;
                   report_tables := category_sheets (items sheets_data) |})
  end.

End generate_excel.

Module generate_excel_simple.

Definition technical_keywords : list string :=
  [ "widget"; "controller"; "service"; "model"; "provider";
    "firebase"; "firestore"; "collection"; "document";
    ".dart"; ".json"; "toString"; "override"; "async";
    "await"; "class"; "extends"; "implements"; "void";
    "String"; "int"; "bool"; "double"; "List"; "Map";
    "setState"; "initState"; "dispose"; "build";
    "BuildContext"; "StatefulWidget"; "StatelessWidget" ].

Definition _is_technical_string (text : string) : bool :=
  let lower_text := PyStr.lower text in
  if existsb (λ keyword, PyStr.contains (PyStr.lower keyword) lower_text)
       technical_keywords
  then true
  else if bool_decide (3 < PyStr.len text)
          && PyStr.any PyStr.c_isupper (PyStr.tail text)
          && negb (PyStr.any PyStr.c_isspace text)
  then true
  else if bool_decide (1 < PyStr.count "_" text)
  then true
  else if bool_decide (PyStr.len text < 3) && negb (PyStr.isalpha text)
  then true
  else if PyStr.isupper text && bool_decide (PyStr.len text < 10)
  then true
  else false.

Definition clean_and_deduplicate_strings :=
  clean_and_deduplicate_strings _is_technical_string.

(** The rows [create_summary_file] writes to 01_SUMMARY.csv. *)
Definition create_summary_file (sheets_items : list (string * list Row))
    (metadata : Metadata) : list (list cell) :=
  [ [Str "StepzSync Translation Summary"; Str ""];
    [Str ""; Str ""];
    [Str "Extraction Date:"; Str (PyStr.take 10 (extractedAt metadata))];
    [Str "Total Strings Found:"; Int (totalStrings metadata)];
    [Str "Files Processed:"; Int (filesProcessed metadata)];
    [Str ""; Str ""];
    [Str "Strings by Category:"; Str "Count"] ]
  ++ ((λ '(category, strings), [Str category; len_cell strings])
        <$> List.filter (λ '(_, strings), nonempty strings) sheets_items)
  ++ [ [Str ""; Str ""];
       [Str "Translation Progress Tracker:"; Str ""];
       [Str "(Update this as you complete translation)"; Str ""];
       [Str ""; Str ""];
       [Str "Category"; Str "Total Strings"; Str "Translated";
        Str "Progress %"] ]
  ++ ((λ '(category, strings),
         [Str category; len_cell strings; Int 0; Str "0%"])
        <$> List.filter (λ '(_, strings), nonempty strings) sheets_items).

(** The name of a category file, without its directory:
    [f'{file_count:02d}_{category.replace("/", "-").replace(" ", "_")}.csv'] *)
Definition csv_basename (file_count : nat) (category : string) : string :=
  String.append (PyStr.format_02d file_count)
    (String.append "_"
       (String.append
          (PyStr.replace " " "_" (PyStr.replace "/" "-" category)) ".csv")).

(** [f'{output_dir}/...'] *)
Definition csv_filename (output_dir : string) (file_count : nat)
    (category : string) : string :=
  String.append output_dir (String.append "/" (csv_basename file_count category)).

Definition output_dir : string := "translation_sheets".

(** The loop of [create_csv_files]: one file per bucket that holds data,
    numbered by [file_count]. *)
Fixpoint category_csv_files (file_count : nat)
    (sheets_items : list (string * list Row)) : list Table :=
  match sheets_items with
  | [] => []
  | (category, strings) :: rest =>
      if nonempty strings
      then {| table_name := csv_filename output_dir file_count category;
              table_header := columns;
              table_rows := strings |}
           :: category_csv_files (S file_count) rest
      else category_csv_files file_count rest
  end.

(** [main()], as far as data flows: load, clean, group, count, write the
    summary and the category files.  The console and the constant
    instructions file are left out.  [None] stands for no run of the
    script (see [dedup_step]). *)
Definition main (data : Data) : option (exn + Report) :=
  let '(h, strings_data) := load (strings data) in
  '(h', out) ← clean_and_deduplicate_strings h strings_data;
  let cleaned_strings := records h' out in
  match organize_by_sheets cleaned_strings with
  | inl e => Some (inl e)
  | inr sheets_data =>
      let metadata :=
        set_totalStrings (Z.of_nat (length cleaned_strings)) (metadata data) in
      Some (inr {| report_cleaned := cleaned_strings;
                   report_sheets := sheets_data;
                   report_metadata := metadata;
                   report_summary :=
                     create_summary_file (items sheets_data) metadata;
                   report_tables := category_csv_files 0 (items sheets_data) |})
  end.

End generate_excel_simple.

(** ** csv_to_excel.py *)

Module csv_to_excel.

(** The sheet name both writers derive from the name of a CSV file. *)
Definition sheet_name_of (csv_file : string) : string :=
  let sheet_name :=
    PyStr.replace "_" " " (PyStr.replace ".csv" "" csv_file) in
  let sheet_name :=
    if PyStr.isdigit (PyStr.replace " " "" (PyStr.take 2 sheet_name))
    then PyStr.drop 3 sheet_name
    else sheet_name in
  PyStr.take 31 sheet_name.

(** The formats of [create_excel_with_xlsxwriter] and the style groups of
    [create_excel_with_openpyxl]. *)
Inductive style : Type :=
  | plain      (* no format given *)
  | header     (* header_format; header fill, font, centred, border *)
  | body       (* cell_format; cell alignment and border *)
  | title      (* title_format; title fill and font *)
  | section.   (* section_format; section fill and font *)

(** One [worksheet.write(row, col, value, format)], or one
    [ws.cell(row=, column=, value=)] with the styles set on it. *)
Record write : Type := mkWrite {
  w_row : nat;
  w_col : nat;
  w_value : string;
  w_style : style
}.

Inductive writer_exn : Type :=
  | IndexError.

(** [for col_num, cell_value in enumerate(row_data, start)]: write each
    cell of a row with the style [sty] gives it. *)
Fixpoint write_cells (sty : string → style) (row_num col_num : nat)
    (row_data : list string) : list write :=
  match row_data with
  | [] => []
  | cell_value :: rest =>
      mkWrite row_num col_num cell_value (sty cell_value)
      :: write_cells sty row_num (S col_num) rest
  end.

(** [row_data and row_data[0] and row_data[0].endswith(':')] *)
Definition is_section_row (row_data : list string) : bool :=
  match row_data with
  | [] => false
  | first :: _ => negb (String.eqb first "") && PyStr.endswith ":" first
  end.

(** [if len(row_data) > 1: worksheet.write(row_num, 1, row_data[1], ...)] *)
Definition write_second (row_num : nat) (row_data : list string)
    (sty : style) : list write :=
  match row_data with
  | _ :: second :: _ => [mkWrite row_num 1 second sty]
  | _ => []
  end.

(** One row of the write loop of [create_excel_with_xlsxwriter]. *)
Definition xlsxwriter_row (is_summary : bool) (row_num : nat)
    (row_data : list string) : writer_exn + list write :=
  if is_summary then
    if bool_decide (row_num = 0) then
      match row_data with
      | [] => inl IndexError
      | first :: _ =>
          inr (mkWrite row_num 0 first title
               :: write_second row_num row_data plain)
      end
    else if is_section_row row_data then
      match row_data with
      | [] => inr []
      | first :: _ =>
          inr (mkWrite row_num 0 first section
               :: write_second row_num row_data section)
      end
    else inr (write_cells (λ _, plain) row_num 0 row_data)
  else
    if bool_decide (row_num = 0)
    then inr (write_cells (λ _, header) row_num 0 row_data)
    else inr (write_cells (λ _, body) row_num 0 row_data).

(** [for row_num, row_data in enumerate(rows)] of the xlsxwriter writer;
    [is_summary] is ['SUMMARY' in csv_file.upper()]. *)
Fixpoint xlsxwriter_rows (is_summary : bool) (row_num : nat)
    (rows : list (list string)) : writer_exn + list write :=
  match rows with
  | [] => inr []
  | row_data :: rest =>
      match xlsxwriter_row is_summary row_num row_data with
      | inl e => inl e
      | inr ws =>
          match xlsxwriter_rows is_summary (S row_num) rest with
          | inl e => inl e
          | inr ws' => inr (ws ++ ws')%list
          end
      end
  end.

Definition xlsxwriter_writes (is_summary : bool) (rows : list (list string))
  : writer_exn + list write :=
  xlsxwriter_rows is_summary 0 rows.

(** The style the openpyxl writer sets on a cell. *)
Definition openpyxl_style (is_summary : bool) (row_num : nat)
    (cell_value : string) : style :=
  if bool_decide (row_num = 1) && negb is_summary then header
  else if bool_decide (row_num = 1) && is_summary then title
  else if negb (String.eqb cell_value "") && PyStr.endswith ":" cell_value
  then section
  else if bool_decide (1 < row_num) && negb is_summary then body
  else plain.

(** [for row_num, row_data in enumerate(rows, start=1)] of the openpyxl
    writer. *)
Fixpoint openpyxl_rows (is_summary : bool) (row_num : nat)
    (rows : list (list string)) : list write :=
  match rows with
  | [] => []
  | row_data :: rest =>
      write_cells (openpyxl_style is_summary row_num) row_num 1 row_data
      ++ openpyxl_rows is_summary (S row_num) rest
  end.

Definition openpyxl_writes (is_summary : bool) (rows : list (list string))
  : list write :=
  openpyxl_rows is_summary 1 rows.

(** What [main] finds: the directory, the libraries that imported, and
    what a call of each writer would do, return or raise. *)
Inductive outcome : Type :=
  | returns
  | raises (e : string).

Record Env : Type := mkEnv {
  dir_exists : bool;
  HAS_XLSXWRITER : bool;
  HAS_OPENPYXL : bool;
  run_xlsxwriter : outcome;
  run_openpyxl : outcome
}.

(** The lines [main] prints, and its calls of the writers. *)
Inductive event : Type :=
  | say_directory_not_found
  | say_run_generator_first
  | say_converting
  | say_using_xlsxwriter
  | say_using_openpyxl
  | say_created
  | say_error_xlsxwriter (e : string)
  | say_error_openpyxl (e : string)
  | say_neither_installed
  | say_csv_available
  | say_import_manually
  | say_to_install
  | say_pip_install
  | call_xlsxwriter
  | call_openpyxl.

#[global] Instance event_eq_dec : EqDecision event.
Proof. solve_decision. Defined.

Definition no_library : list event :=
  [ say_neither_installed; say_csv_available; say_import_manually;
    say_to_install; say_pip_install ].

(** [main()]: the events in order and the exit status. *)
Definition main (env : Env) : list event * Z :=
  if negb (dir_exists env)
  then ([say_directory_not_found; say_run_generator_first], 1%Z)
  else
    let start := [say_converting] in
    let after_xlsxwriter : list event * bool :=
      if HAS_XLSXWRITER env then
        match run_xlsxwriter env with
        | returns =>
            ((start ++ [say_using_xlsxwriter; call_xlsxwriter; say_created])%list,
             true)
        | raises e =>
            ((start ++ [say_using_xlsxwriter; call_xlsxwriter;
                        say_error_xlsxwriter e])%list, false)
        end
      else (start, false) in
    if after_xlsxwriter.2 then (after_xlsxwriter.1, 0%Z)
    else
      let after_openpyxl : list event * bool :=
        if HAS_OPENPYXL env then
          match run_openpyxl env with
          | returns =>
              ((after_xlsxwriter.1
                  ++ [say_using_openpyxl; call_openpyxl; say_created])%list,
               true)
          | raises e =>
              ((after_xlsxwriter.1
                  ++ [say_using_openpyxl; call_openpyxl;
                      say_error_openpyxl e])%list, false)
          end
        else (after_xlsxwriter.1, false) in
      if after_openpyxl.2 then (after_openpyxl.1, 0%Z)
      else ((after_openpyxl.1 ++ no_library)%list, 1%Z).

End csv_to_excel.

(** The script a statement is about. *)
Inductive script : Type :=
  | excel    (* generate_excel.py *)
  | simple.  (* generate_excel_simple.py *)

Definition classifier (s : script) : string → bool :=
  match s with
  | excel => generate_excel._is_technical_string
  | simple => generate_excel_simple._is_technical_string
  end.

Definition dedup (s : script) :
    gmap loc StringRecord → list loc → option (gmap loc StringRecord * list loc) :=
  match s with
  | excel => generate_excel.clean_and_deduplicate_strings
  | simple => generate_excel_simple.clean_and_deduplicate_strings
  end.

Definition keywords (s : script) : list string :=
  match s with
  | excel => generate_excel.technical_keywords
  | simple => generate_excel_simple.technical_keywords
  end.

(** A character of a purely alphabetic sentence: a letter or a space. *)
Definition letter_or_space (c : ascii) : bool :=
  PyStr.c_isalpha c || Ascii.eqb c " ".

(** ** Vocabulary of the statements *)






(** [tok] occurs in [s] up to case: some substring of [s] has the same
    lowercase form as [tok]. *)
Definition occurs_ci (tok s : string) : Prop :=
  ∃ pre u post, s = pre ++ u ++ post ∧ PyStr.lower u = PyStr.lower tok.

(** Every object a list refers to exists in the store. *)
Definition allocated (h : gmap loc StringRecord) (ls : list loc) : Prop :=
  Forall (λ l, is_Some (h !! l)) ls.

(** The key under which the loop files the object at [l]; none for an
    object the classifier rejects. *)
Definition surviving_key (tech : string → bool) (h : gmap loc StringRecord)
    (l : loc) : option key :=
  r ← h !! l; if tech (text r) then None else Some (dedup_key r).

(** Specification of the first-seen order: an element is kept when its key
    survives and no element before it has that surviving key. *)
Fixpoint first_occurrences (tech : string → bool) (h : gmap loc StringRecord)
    (before ls : list loc) : list loc :=
  match ls with
  | [] => []
  | l :: rest =>
      match surviving_key tech h l with
      | Some k =>
          if bool_decide (k ∈ omap (surviving_key tech h) before)
          then first_occurrences tech h (before ++ [l]) rest
          else l :: first_occurrences tech h (before ++ [l]) rest
      | None => first_occurrences tech h (before ++ [l]) rest
      end
  end.

(** How many records of [rs] are filed under [k]. *)
Definition count_key (k : key) (rs : list StringRecord) : nat :=
  length (List.filter (λ r, bool_decide (dedup_key r = k)) rs).

(** The fields the merge never writes. *)
Definition frozen (r : StringRecord) : string * string * string :=
  (text r, category r, notes r).

Definition same_identity (h h' : gmap loc StringRecord) : Prop :=
  ∀ l, frozen <$> h' !! l = frozen <$> h !! l.

(** What holds of the loop variables once the prefix [pre] of the input
    has been visited, [h0] being the store at the call. *)
Record dedup_inv (tech : string → bool) (h0 : gmap loc StringRecord)
    (pre : list loc) (st : loop_state) : Prop := {
  inv_heap : same_identity h0 (heap st);
  inv_cleaned : cleaned st = first_occurrences tech h0 [] pre;
  inv_seen_sound : ∀ k e,
    seen st !! k = Some e →
    e ∈ cleaned st ∧ surviving_key tech h0 e = Some k;
  inv_seen_complete : ∀ k,
    k ∈ omap (surviving_key tech h0) pre → is_Some (seen st !! k)
}.

(** ** Cells of the two writers *)

(** Where and what a write puts, without its style. *)
Definition placed (w : csv_to_excel.write) : nat * nat * string :=
  (csv_to_excel.w_row w, csv_to_excel.w_col w, csv_to_excel.w_value w).

(** The same, counted from 1 as openpyxl counts. *)
Definition placed_from_1 (w : csv_to_excel.write) : nat * nat * string :=
  (S (csv_to_excel.w_row w), S (csv_to_excel.w_col w),
   csv_to_excel.w_value w).

(** The cell openpyxl writes for a cell xlsxwriter writes on a data
    sheet. *)
Definition as_openpyxl_data (w : csv_to_excel.write) : csv_to_excel.write :=
  csv_to_excel.mkWrite (S (csv_to_excel.w_row w)) (S (csv_to_excel.w_col w))
    (csv_to_excel.w_value w)
    (if bool_decide (csv_to_excel.w_row w = 0) then csv_to_excel.header
     else if negb (String.eqb (csv_to_excel.w_value w) "")
             && PyStr.endswith ":" (csv_to_excel.w_value w)
          then csv_to_excel.section else csv_to_excel.body).

(** ** Merged screen contexts *)

(** Specification of the merge of one more context into an existing one:
    appended after "; " unless it is already a substring. *)
Definition merge_context (acc screen : string) : string :=
  if PyStr.contains screen acc then acc else acc ++ "; " ++ screen.

(** The screen contexts, in input order and as they were at the call, of
    the accepted elements filed under [k]. *)
Definition group_contexts (tech : string → bool) (h : gmap loc StringRecord)
    (k : key) (ls : list loc) : list string :=
  omap (λ l, r ← h !! l;
             if tech (text r) then None
             else if bool_decide (dedup_key r = k)
                  then Some (screenContext r) else None) ls.

(** What holds of the contexts once the prefix [pre] has been visited:
    only kept objects are written, each kept object is the entry of its
    key, and the entry of a key carries the contexts of its group, folded
    in input order. *)
Record dedup_ctx_inv (tech : string → bool) (h0 : gmap loc StringRecord)
    (pre : list loc) (st : loop_state) : Prop := {
  ctx_untouched : ∀ l, l ∉ cleaned st → heap st !! l = h0 !! l;
  ctx_cleaned_seen : ∀ l,
    l ∈ cleaned st →
    ∃ k, surviving_key tech h0 l = Some k ∧ seen st !! k = Some l;
  ctx_merged : ∀ k e,
    seen st !! k = Some e →
    ∃ r0 cs,
      h0 !! e = Some r0
      ∧ group_contexts tech h0 k pre = screenContext r0 :: cs
      ∧ heap st !! e
        = Some (set_screenContext
                  (foldl merge_context (screenContext r0) cs) r0)
}.

(** ** Sample inputs *)

(** The same string on two screens, spelled with and without a capital. *)
Definition login_records : list StringRecord :=
  [ mkRecord "Login" "LoginScreen" "Authentication" "";
    mkRecord "login" "SplashScreen" "Authentication" "" ].

(** Two spellings of one string around an identifier, then a second
    string: the capitalised spelling is rejected by both classifiers. *)
Definition mixed_records : list StringRecord :=
  [ mkRecord "LOGIN" "Banner" "Authentication" "";
    mkRecord "Login" "LoginScreen" "Authentication" "";
    mkRecord "firebase_user_id" "AuthService" "Authentication" "";
    mkRecord "" "Spacer" "Common/Shared" "";
    mkRecord "Are you sure?" "DeleteDialog" "Dialogs & Popups" "";
    mkRecord "login " "SplashScreen" "Authentication" "";
    mkRecord "Are you sure?" "LogoutDialog" "Dialogs & Popups" "confirm" ].

(** Accepted strings with pairwise distinct keys, the same text under two
    categories among them, and one identifier. *)
Definition distinct_records : list StringRecord :=
  [ mkRecord "Login" "LoginScreen" "Authentication" "";
    mkRecord "firebase_user_id" "AuthService" "Authentication" "";
    mkRecord "Sign up" "LoginScreen" "Authentication" "";
    mkRecord "Login" "AppBar" "Common/Shared" "button" ].


(** A record that only the classifier can speak about. *)
Definition identifier_records : list StringRecord :=
  [ mkRecord "firebase_user_id" "AuthService" "Authentication" "" ].

(** A record filed under a category outside the fixed list. *)
Definition onboarding_record : StringRecord :=
  mkRecord "Get started" "WelcomeScreen" "Onboarding" "".

(** * Strings *)

Section PyStrFacts.
Import PyStr.

Lemma lower_app a b : lower (a ++ b) = lower a ++ lower b.
Proof. induction a as [|c a IH]; simpl; [done | by rewrite IH]. Qed.

Lemma c_lower_not_upper c : c_isupper (c_lower c) = false.
Proof. by destruct c as [[] [] [] [] [] [] [] []]; vm_compute. Qed.

Lemma lower_no_upper s : any c_isupper (lower s) = false.
Proof.
  induction s as [|c s IH]; simpl; [done |].
  by rewrite c_lower_not_upper, IH.
Qed.

Lemma lower_fixed s : any c_isupper s = false → lower s = s.
Proof.
  induction s as [|c s IH]; simpl; [done |].
  intros [Hc Hs]%orb_false_elim. unfold c_lower. by rewrite Hc, IH.
Qed.

Lemma any_app p a b : any p (a ++ b) = any p a || any p b.
Proof. induction a as [|c a IH]; simpl; [done | by rewrite IH, orb_assoc]. Qed.

Lemma startswith_spec p s :
  startswith p s = true ↔ ∃ post, s = p ++ post.
Proof.
  revert s. induction p as [|a p IH]; intros s; simpl.
  - split; [eauto | done].
  - destruct s as [|b s].
    + split; [done | by intros [post ?]].
    + rewrite andb_true_iff, IH, Ascii.eqb_eq. split.
      * intros [-> [post ->]]. by exists post.
      * intros [post [= -> ->]]. eauto.
Qed.

Lemma contains_spec needle hay :
  contains needle hay = true ↔ ∃ pre post, hay = pre ++ needle ++ post.
Proof.
  induction hay as [|c hay IH]; simpl.
  - rewrite orb_false_r, startswith_spec. split.
    + intros [post ->]. by exists "", post.
    + intros [[|??] [post H]]; [by exists post | done].
  - rewrite orb_true_iff, startswith_spec, IH. split.
    + intros [[post ->] | (pre & post & ->)].
      * by exists "", post.
      * by exists (String c pre), post.
    + intros [[|c' pre] [post H]]; simpl in H.
      * left. by exists post.
      * right. injection H as -> ->. by exists pre, post.
Qed.

Lemma lower_split t a b :
  lower t = a ++ b → ∃ a' b', t = a' ++ b' ∧ lower a' = a ∧ lower b' = b.
Proof.
  revert t. induction a as [|c a IH]; intros t.
  - intros H. by exists "", t.
  - destruct t as [|d t]; [done |].
    intros H. injection H as <- (a' & b' & -> & <- & <-)%IH.
    by exists (String d a'), b'.
Qed.

(** The test of [generate_excel_simple.py] decides occurrence up to case. *)
Lemma occurs_ci_contains tok s :
  occurs_ci tok s ↔ contains (lower tok) (lower s) = true.
Proof.
  rewrite contains_spec. split.
  - intros (pre & u & post & -> & <-).
    exists (lower pre), (lower post). by rewrite !lower_app.
  - intros (pre & post & (pre' & rest & -> & <- & Hrest)%lower_split).
    apply lower_split in Hrest as (u & post' & -> & Hu & <-).
    by exists pre', u, post'.
Qed.

#[global] Instance occurs_ci_dec tok s : Decision (occurs_ci tok s).
Proof.
  refine (cast_if (decide (contains (lower tok) (lower s) = true)));
    by rewrite occurs_ci_contains.
Defined.

(** The test of [generate_excel.py] can only succeed on a keyword that is
    an occurrence up to case. *)
Lemma contains_raw_occurs_ci tok s :
  contains tok (lower s) = true → occurs_ci tok s.
Proof.
  intros H. apply occurs_ci_contains. rewrite lower_fixed; [done |].
  apply contains_spec in H as (pre & post & H).
  pose proof (lower_no_upper s) as Hs. rewrite H, !any_app in Hs.
  by apply orb_false_elim in Hs as [_ [? _]%orb_false_elim].
Qed.

Lemma existsb_contains_false (f : string → string) kws s :
  (∀ tok, tok ∈ kws → contains (f tok) s = false) →
  existsb (λ keyword, contains (f keyword) s) kws = false.
Proof.
  induction kws as [|k kws IH]; simpl; [done |].
  intros H. rewrite H by left. apply IH. intros tok ?. apply H. by right.
Qed.

End PyStrFacts.

(** * The classifiers *)

Section ClassifierFacts.
Import PyStr.

Lemma existsb_contains_true (f : string → string) kws s tok :
  tok ∈ kws → contains (f tok) s = true →
  existsb (λ keyword, contains (f keyword) s) kws = true.
Proof.
  intros Hin Htok. apply existsb_exists. exists tok.
  by rewrite <- list_elem_of_In.
Qed.

Lemma no_underscore_count s :
  all letter_or_space s = true → count "_" s = 0.
Proof.
  induction s as [|c s IH]; cbn [all count]; [done |].
  intros [Hc Hs]%andb_true_iff. rewrite IH by done.
  destruct (Ascii.eqb_spec c "_") as [-> |]; [by vm_compute in Hc | done].
Qed.

Lemma all_weaken (p q : ascii → bool) s :
  (∀ c, p c = true → q c = true) → all p s = true → all q s = true.
Proof.
  intros Hpq. induction s as [|c s IH]; simpl; [done |].
  intros [Hc Hs]%andb_true_iff. by rewrite Hpq, IH.
Qed.

Lemma space_is_whitespace s :
  any (Ascii.eqb " ") s = true → any c_isspace s = true.
Proof.
  induction s as [|c s IH]; cbn [any]; [done |].
  intros [<-%Ascii.eqb_eq | Hs]%orb_true_iff; [done |].
  rewrite IH by done. apply orb_true_r.
Qed.

(** Rule 1 of either script stays silent on a text in which no keyword
    occurs up to case. *)
Lemma keyword_rule_silent s txt :
  (∀ tok, tok ∈ keywords s → ¬ occurs_ci tok txt) →
  match s with
  | excel =>
      existsb (λ keyword, contains keyword (lower txt))
        generate_excel.technical_keywords
  | simple =>
      existsb (λ keyword, contains (lower keyword) (lower txt))
        generate_excel_simple.technical_keywords
  end = false.
Proof.
  intros Hno. destruct s.
  - apply (existsb_contains_false (λ k, k)). intros tok Hin.
    apply not_true_is_false. intros H%contains_raw_occurs_ci.
    by apply (Hno tok).
  - apply (existsb_contains_false lower). intros tok Hin.
    apply not_true_is_false. intros H%occurs_ci_contains.
    by apply (Hno tok).
Qed.

(** generate_excel_simple.py, rule 1: a keyword occurring up to case
    rejects the text. *)
Lemma simple_rejects_keyword txt tok :
  tok ∈ generate_excel_simple.technical_keywords →
  occurs_ci tok txt →
  generate_excel_simple._is_technical_string txt = true.
Proof.
  intros Hin Hocc%occurs_ci_contains.
  unfold generate_excel_simple._is_technical_string.
  by rewrite (existsb_contains_true lower _ _ tok).
Qed.

(** generate_excel_simple.py, rule 5: an all-uppercase text shorter than
    ten characters is rejected. *)
Lemma simple_rejects_short_uppercase txt :
  isupper txt = true → len txt < 10 →
  generate_excel_simple._is_technical_string txt = true.
Proof.
  intros Hup Hlen. unfold generate_excel_simple._is_technical_string.
  cbv zeta. rewrite Hup, (bool_decide_eq_true_2 _ Hlen).
  cbn [andb].
  by repeat match goal with
            | |- (if ?b then _ else _) = _ => destruct b; [done |]
            end.
Qed.

(** generate_excel_simple.py, rule 2 is guarded by [len(text) > 3]: a
    short alphabetic text with a lowercase letter and no keyword is
    accepted. *)
Lemma simple_accepts_short_alpha txt :
  (len txt ≤ 3)%nat → isalpha txt = true → isupper txt = false →
  (∀ tok, tok ∈ generate_excel_simple.technical_keywords →
          ¬ occurs_ci tok txt) →
  generate_excel_simple._is_technical_string txt = false.
Proof.
  intros Hlen Halpha Hup Hno.
  unfold generate_excel_simple._is_technical_string. cbv zeta.
  rewrite (keyword_rule_silent simple txt Hno).
  rewrite (bool_decide_eq_false_2 (3 < len txt)) by lia.
  rewrite Halpha, Hup, andb_false_r. cbn [andb negb].
  apply andb_true_iff in Halpha as [_ Hall].
  rewrite no_underscore_count; [done |].
  eapply all_weaken; [| done]. intros c Hc. unfold letter_or_space.
  by rewrite Hc.
Qed.

End ClassifierFacts.

(** * The deduplicator *)

Local Open Scope list_scope.

Section DedupFacts.

Variable tech : string → bool.

(** ** Identity of objects across the merge *)

Lemma same_identity_key h h' l :
  same_identity h h' → surviving_key tech h' l = surviving_key tech h l.
Proof.
  intros Hid. specialize (Hid l). unfold surviving_key.
  destruct (h' !! l) as [r'|], (h !! l) as [r|]; try done.
  injection Hid as Htext Hcat _. unfold dedup_key. cbn.
  by rewrite Htext, Hcat.
Qed.

Lemma same_identity_merge h0 h e existing ctx :
  same_identity h0 h → h !! e = Some existing →
  same_identity h0 (<[e := set_screenContext ctx existing]> h).
Proof.
  intros Hid He l. destruct (decide (l = e)) as [-> |].
  - rewrite lookup_insert_eq, <- Hid, He. done.
  - by rewrite lookup_insert_ne.
Qed.

(** ** The specification of the first-seen order *)

Lemma first_occurrences_app h before xs ys :
  first_occurrences tech h before (xs ++ ys) =
  first_occurrences tech h before xs
    ++ first_occurrences tech h (before ++ xs) ys.
Proof.
  revert before. induction xs as [|x xs IH]; intros before; cbn.
  - by rewrite app_nil_r.
  - rewrite !IH, <- !app_assoc. cbn.
    destruct (surviving_key tech h x); [case_bool_decide |]; done.
Qed.

Lemma first_occurrences_sublist h before ls :
  first_occurrences tech h before ls `sublist_of` ls.
Proof.
  revert before. induction ls as [|l ls IH]; intros before; cbn.
  - constructor.
  - destruct (surviving_key tech h l); [case_bool_decide |];
      by (apply sublist_skip || apply sublist_cons).
Qed.

Lemma first_occurrences_survive h before ls l :
  l ∈ first_occurrences tech h before ls →
  is_Some (surviving_key tech h l).
Proof.
  revert before. induction ls as [|x ls IH]; intros before; cbn.
  - by intros ?%elem_of_nil.
  - destruct (surviving_key tech h x) eqn:Hx; [case_bool_decide |];
      rewrite ?elem_of_cons; intros; destruct_or?; subst; eauto.
Qed.

(** The keys of the kept elements are pairwise distinct and new. *)
Lemma first_occurrences_keys h before ls :
  NoDup (omap (surviving_key tech h) (first_occurrences tech h before ls))
  ∧ ∀ k, k ∈ omap (surviving_key tech h)
               (first_occurrences tech h before ls) →
         k ∉ omap (surviving_key tech h) before.
Proof.
  revert before. induction ls as [|l ls IH]; intros before; cbn.
  - split; [constructor | by intros k ?%elem_of_nil].
  - destruct (IH (before ++ [l])) as [Hnd Hnew]. rewrite omap_app in Hnew.
    destruct (surviving_key tech h l) as [k|] eqn:Hl; cbn in Hnew;
      rewrite Hl in Hnew; [case_bool_decide as Hk |].
    + split; [done |]. intros k' Hk' ?. apply (Hnew k' Hk'), elem_of_app.
      by left.
    + cbn. rewrite Hl. split.
      * apply NoDup_cons. split; [| done]. intros Hin.
        apply (Hnew k Hin), elem_of_app. right. by left.
      * intros k' [-> | Hk']%elem_of_cons; [done |]. intros ?.
        apply (Hnew k' Hk'), elem_of_app. by left.
    + split; [done |]. intros k' Hk' ?. apply (Hnew k' Hk'), elem_of_app.
      by left.
Qed.

(** Every surviving key of the input is the key of a kept element, unless
    it was seen before. *)
Lemma first_occurrences_complete h before ls k :
  k ∈ omap (surviving_key tech h) ls →
  k ∈ omap (surviving_key tech h) before
  ∨ k ∈ omap (surviving_key tech h) (first_occurrences tech h before ls).
Proof.
  revert before. induction ls as [|l ls IH]; intros before; cbn.
  - by intros ?%elem_of_nil.
  - specialize (IH (before ++ [l])). rewrite omap_app in IH. cbn in IH.
    destruct (surviving_key tech h l) as [k'|] eqn:Hl;
      [case_bool_decide as Hk'; rewrite ?elem_of_cons |].
    + intros [-> | [Hin | ?]%IH]; [by left | | by right].
      apply elem_of_app in Hin as [? | ->%list_elem_of_singleton];
        by left.
    + cbn. rewrite Hl, elem_of_cons.
      intros [-> | [Hin | ?]%IH]; [right; by left | | right; by right].
      apply elem_of_app in Hin as [? | ->%list_elem_of_singleton];
        [by left | right; by left].
    + intros [Hin | ?]%IH; [| by right]. rewrite app_nil_r in Hin.
      by left.
Qed.

End DedupFacts.

Section DedupLoop.

Variable tech : string → bool.

Lemma dedup_inv_init h :
  dedup_inv tech h [] {| heap := h; seen := ∅; cleaned := [] |}.
Proof.
  split; cbn; [done | done | | by intros k ?%elem_of_nil].
  intros k e. by rewrite lookup_empty.
Qed.

Lemma dedup_step_inv h0 pre st l :
  dedup_inv tech h0 pre st → is_Some (h0 !! l) →
  ∃ st', dedup_step tech st l = Some st' ∧ dedup_inv tech h0 (pre ++ [l]) st'.
Proof.
  intros [Hheap Hcl Hsound Hcompl] [r0 Hr0].
  pose proof (same_identity_key tech _ _ l Hheap) as Hkey.
  pose proof (Hheap l) as Hl. rewrite Hr0 in Hl.
  destruct (heap st !! l) as [r|] eqn:Hr; [| done].
  unfold surviving_key in Hkey. rewrite Hr, Hr0 in Hkey. cbn in Hkey.
  assert (Hsk : surviving_key tech h0 l
                = if tech (text r) then None else Some (dedup_key r)).
  { unfold surviving_key. by rewrite Hr0. }
  unfold dedup_step. rewrite Hr. cbn.
  destruct (tech (text r)) eqn:Htech.
  - (* rejected by the classifier *)
    exists st. split; [done |]. split; [done | | done |].
    + rewrite first_occurrences_app. cbn. by rewrite Hsk, app_nil_r.
    + intros k. rewrite omap_app. cbn. rewrite Hsk, app_nil_r. auto.
  - destruct (seen st !! dedup_key r) as [e|] eqn:Hseen.
    + (* key seen: merge into the existing object *)
      destruct (Hsound _ _ Hseen) as [He Hek].
      assert (Hold : dedup_key r ∈ omap (surviving_key tech h0) pre).
      { apply list_elem_of_omap. exists e. split; [| done].
        rewrite Hcl in He.
        eapply elem_of_sublist; [done | apply first_occurrences_sublist]. }
      rewrite <- (same_identity_key tech _ _ e Hheap) in Hek.
      unfold surviving_key in Hek.
      destruct (heap st !! e) as [existing|] eqn:Hexisting; [| done].
      cbn.
      assert (Hfirst : first_occurrences tech h0 [] (pre ++ [l])
                       = first_occurrences tech h0 [] pre).
      { rewrite first_occurrences_app. cbn. rewrite Hsk.
        by rewrite bool_decide_eq_true_2, app_nil_r. }
      assert (Hkeys : ∀ k, k ∈ omap (surviving_key tech h0) (pre ++ [l]) →
                           is_Some (seen st !! k)).
      { intros k. rewrite omap_app. cbn. rewrite Hsk.
        intros [? | ->%list_elem_of_singleton]%elem_of_app; eauto. }
      destruct (PyStr.contains _ _).
      * exists st. split; [done |]. split; try done. by rewrite Hfirst.
      * eexists. split; [done |]. split; cbn; try done.
        -- by apply same_identity_merge.
        -- by rewrite Hfirst.
    + (* key unseen: the object is kept *)
      assert (Hnew : dedup_key r ∉ omap (surviving_key tech h0) pre).
      { intros [? Hin]%Hcompl. congruence. }
      eexists. split; [done |]. split; cbn.
      * done.
      * rewrite first_occurrences_app. cbn. rewrite Hsk, Hcl.
        by rewrite bool_decide_eq_false_2.
      * intros k e. destruct (decide (k = dedup_key r)) as [-> |].
        -- rewrite lookup_insert_eq. intros [= <-].
           split; [apply elem_of_app; right; by left | done].
        -- rewrite lookup_insert_ne by done. intros [? ?]%Hsound.
           split; [apply elem_of_app; by left | done].
      * intros k. rewrite omap_app. cbn. rewrite Hsk.
        intros [Hin | ->%list_elem_of_singleton]%elem_of_app.
        -- destruct (decide (k = dedup_key r)) as [-> |]; [done |].
           rewrite lookup_insert_ne by done. auto.
        -- by rewrite lookup_insert_eq.
Qed.

Lemma dedup_loop_inv h0 ls pre st :
  dedup_inv tech h0 pre st → allocated h0 ls →
  ∃ st', dedup_loop tech st ls = Some st' ∧ dedup_inv tech h0 (pre ++ ls) st'.
Proof.
  revert pre st. induction ls as [|l ls IH]; intros pre st Hinv Hall; cbn.
  - exists st. by rewrite app_nil_r.
  - apply Forall_cons in Hall as [Hl Hls].
    destruct (dedup_step_inv _ _ _ _ Hinv Hl) as (st1 & -> & Hinv1). cbn.
    destruct (IH _ _ Hinv1 Hls) as (st' & -> & Hinv').
    exists st'. by rewrite <- app_assoc in Hinv'.
Qed.

(** The call returns, its result is the first-seen selection, and the
    objects keep their text, category and notes. *)
Lemma clean_and_deduplicate_strings_spec h strings_data :
  allocated h strings_data →
  ∃ h' out,
    clean_and_deduplicate_strings tech h strings_data = Some (h', out)
    ∧ out = first_occurrences tech h [] strings_data
    ∧ same_identity h h'.
Proof.
  intros Hall. unfold clean_and_deduplicate_strings.
  destruct (dedup_loop_inv h strings_data [] _ (dedup_inv_init h) Hall)
    as (st & -> & [Hheap Hcl _ _]).
  by exists (heap st), (cleaned st).
Qed.

(** On a list of accepted objects with pairwise distinct keys, none of
    them seen, the loop keeps every object and writes nothing. *)
Lemma dedup_loop_fresh ls st :
  Forall (λ l, is_Some (surviving_key tech (heap st) l)) ls →
  NoDup (omap (surviving_key tech (heap st)) ls) →
  (∀ k, k ∈ omap (surviving_key tech (heap st)) ls → seen st !! k = None) →
  ∃ sn, dedup_loop tech st ls
        = Some {| heap := heap st; seen := sn; cleaned := cleaned st ++ ls |}.
Proof.
  revert st. induction ls as [|l ls IH]; intros st Hall Hnd Hnew; cbn.
  - exists (seen st). rewrite app_nil_r. by destruct st.
  - apply Forall_cons in Hall as [[k Hk] Hls].
    cbn in Hnd, Hnew. rewrite Hk in Hnd, Hnew.
    apply NoDup_cons in Hnd as [Hk_rest Hnd].
    unfold surviving_key in Hk. unfold dedup_step.
    destruct (heap st !! l) as [r|]; [| done]. cbn in Hk |- *.
    destruct (tech (text r)); [done |]. injection Hk as <-.
    rewrite (Hnew (dedup_key r)) by left. cbn.
    set (st1 := {| heap := heap st;
                   seen := <[dedup_key r := l]> (seen st);
                   cleaned := cleaned st ++ [l] |}).
    destruct (IH st1) as [sn ->]; cbn; [done | done | |].
    + intros k Hin. rewrite lookup_insert_ne by (by intros <-).
      apply Hnew. by right.
    + exists sn. by rewrite <- app_assoc.
Qed.

End DedupLoop.

Section DedupResults.

Variable tech : string → bool.

Lemma omap_ext_pointwise {A B} (f g : A → option B) (l : list A) :
  (∀ x, f x = g x) → omap f l = omap g l.
Proof.
  intros Hfg. induction l as [|x l IH]; cbn; [done |].
  by rewrite Hfg, IH.
Qed.

(** The records behind accepted references, and their keys. *)
Lemma records_of_survivors h ls :
  Forall (λ l, is_Some (surviving_key tech h l)) ls →
  dedup_key <$> records h ls = omap (surviving_key tech h) ls
  ∧ Forall (λ r, tech (text r) = false) (records h ls)
  ∧ length (records h ls) = length ls.
Proof.
  unfold records.
  induction 1 as [|l ls [k Hk] _ (IHk & IHt & IHn)]; cbn; [done |].
  unfold surviving_key in Hk |- *.
  destruct (h !! l) as [r|]; [| done]. cbn in Hk |- *.
  destruct (tech (text r)) eqn:Hr; [done |].
  unfold surviving_key in IHk. rewrite IHk, IHn.
  split; [done |]. split; [| done]. by constructor.
Qed.

Lemma count_key_cons k r rs :
  count_key k (r :: rs)
  = (if bool_decide (dedup_key r = k) then 1 else 0) + count_key k rs.
Proof. unfold count_key. cbn. by case_bool_decide. Qed.

Lemma count_key_absent k rs :
  k ∉ dedup_key <$> rs → count_key k rs = 0.
Proof.
  induction rs as [|r rs IH]; [done |].
  rewrite fmap_cons, not_elem_of_cons, count_key_cons. intros [Hr Hrs].
  by rewrite bool_decide_eq_false_2, IH.
Qed.

Lemma count_key_unique k rs :
  NoDup (dedup_key <$> rs) → k ∈ dedup_key <$> rs → count_key k rs = 1.
Proof.
  induction rs as [|r rs IH]; [by intros _ ?%elem_of_nil |].
  rewrite fmap_cons, NoDup_cons, elem_of_cons, count_key_cons.
  intros [Hr Hnd] [-> | Hk].
  - by rewrite bool_decide_eq_true_2, count_key_absent.
  - rewrite bool_decide_eq_false_2, IH; [done.. |]. congruence.
Qed.

(** The output of a call, seen through the store the call leaves. *)
Lemma output_survivors h h' strings_data :
  same_identity h h' →
  Forall (λ l, is_Some (surviving_key tech h' l))
         (first_occurrences tech h [] strings_data)
  ∧ omap (surviving_key tech h') (first_occurrences tech h [] strings_data)
    = omap (surviving_key tech h) (first_occurrences tech h [] strings_data).
Proof.
  intros Hid. split.
  - apply Forall_forall. intros l Hl.
    rewrite (same_identity_key tech _ _ l Hid).
    by eapply first_occurrences_survive.
  - apply omap_ext_pointwise. intros l. by apply same_identity_key.
Qed.

(** Every output reference denotes a record and no two of these records
    share a key; a key with an accepted record in the input has one output
    record, a key without has none. *)
Lemma dedup_keys_unique h strings_data :
  allocated h strings_data →
  ∃ h' out,
    clean_and_deduplicate_strings tech h strings_data = Some (h', out)
    ∧ length (records h' out) = length out
    ∧ NoDup (dedup_key <$> records h' out)
    ∧ (∀ l r, l ∈ strings_data → h !! l = Some r → tech (text r) = false →
              count_key (dedup_key r) (records h' out) = 1)
    ∧ (∀ k, (∀ l r, l ∈ strings_data → h !! l = Some r →
                    dedup_key r = k → tech (text r) = true) →
            count_key k (records h' out) = 0).
Proof.
  intros Hall.
  destruct (clean_and_deduplicate_strings_spec tech h strings_data Hall)
    as (h' & out & Hrun & -> & Hid).
  exists h', (first_occurrences tech h [] strings_data).
  destruct (output_survivors h h' strings_data Hid) as [Hsurv Hkeys].
  destruct (records_of_survivors h' _ Hsurv) as (Hrec & _ & Hlen).
  rewrite Hkeys in Hrec.
  destruct (first_occurrences_keys tech h [] strings_data) as [Hnd _].
  rewrite <- Hrec in Hnd.
  split; [done |]. split; [done |]. split; [done |]. split.
  - intros l r Hl Hr Htech. apply count_key_unique; [done |].
    rewrite Hrec.
    destruct (first_occurrences_complete tech h [] strings_data (dedup_key r))
      as [[]%elem_of_nil |]; [| done].
    apply list_elem_of_omap. exists l. split; [done |].
    unfold surviving_key. rewrite Hr. cbn. by rewrite Htech.
  - intros k Hk. apply count_key_absent. rewrite Hrec.
    intros (l & Hl & Hlk)%list_elem_of_omap.
    unfold surviving_key in Hlk.
    destruct (h !! l) as [r|] eqn:Hr; [| done]. cbn in Hlk.
    destruct (tech (text r)) eqn:Htech; [done |]. injection Hlk as Hlk.
    rewrite (Hk l r) in Htech; [done | | done | done].
    eapply elem_of_sublist; [done | apply first_occurrences_sublist].
Qed.

(** A second call on the output of a first returns it as it is. *)
Lemma dedup_idempotent h strings_data :
  allocated h strings_data →
  ∃ h' out,
    clean_and_deduplicate_strings tech h strings_data = Some (h', out)
    ∧ clean_and_deduplicate_strings tech h' out = Some (h', out).
Proof.
  intros Hall.
  destruct (clean_and_deduplicate_strings_spec tech h strings_data Hall)
    as (h' & out & Hrun & -> & Hid).
  exists h', (first_occurrences tech h [] strings_data).
  split; [done |].
  destruct (output_survivors h h' strings_data Hid) as [Hsurv Hkeys].
  unfold clean_and_deduplicate_strings.
  destruct (dedup_loop_fresh tech (first_occurrences tech h [] strings_data)
              {| heap := h'; seen := ∅; cleaned := [] |}) as [sn ->];
    cbn; [done | | done | done].
  rewrite Hkeys. apply first_occurrences_keys.
Qed.

(** No rejected text is in the output, and no object whose text is
    rejected is returned. *)
Lemma dedup_drops_rejected h strings_data :
  allocated h strings_data →
  ∃ h' out,
    clean_and_deduplicate_strings tech h strings_data = Some (h', out)
    ∧ Forall (λ r, tech (text r) = false) (records h' out)
    ∧ (∀ l r, h !! l = Some r → tech (text r) = true → l ∉ out).
Proof.
  intros Hall.
  destruct (clean_and_deduplicate_strings_spec tech h strings_data Hall)
    as (h' & out & Hrun & -> & Hid).
  exists h', (first_occurrences tech h [] strings_data).
  destruct (output_survivors h h' strings_data Hid) as [Hsurv _].
  destruct (records_of_survivors h' _ Hsurv) as (_ & Hrej & _).
  split; [done |]. split; [done |].
  intros l r Hr Htech [k Hk]%first_occurrences_survive.
  unfold surviving_key in Hk. rewrite Hr in Hk. cbn in Hk.
  by rewrite Htech in Hk.
Qed.

End DedupResults.

Lemma dedup_unfold s :
  dedup s = clean_and_deduplicate_strings (classifier s).
Proof. by destruct s. Qed.

(** * Grouping *)

Section OrganizeFacts.

Lemma foldl_insert_nil_lookup (cs : list string)
    (m : gmap string (list Row)) c :
  foldl (λ sheets_data c, <[c := []]> sheets_data) m cs !! c
  = if decide (c ∈ cs) then Some [] else m !! c.
Proof.
  revert m. induction cs as [|c' cs IH]; intros m; cbn; [done |].
  rewrite IH. destruct (decide (c = c')) as [-> |].
  - rewrite lookup_insert_eq. rewrite (decide_True (P := c' ∈ c' :: cs)) by left.
    by case_decide.
  - rewrite lookup_insert_ne by done.
    destruct (decide (c ∈ cs)).
    + by rewrite decide_True by (by right).
    + by rewrite decide_False by (by intros [? | ?]%elem_of_cons).
Qed.

Lemma empty_sheets_lookup c :
  empty_sheets !! c = if decide (c ∈ category_order) then Some [] else None.
Proof. unfold empty_sheets. by rewrite foldl_insert_nil_lookup. Qed.

(** The loop stops at the first record whose category is no key of the
    dict. *)
Lemma organize_loop_raises sheets_data pre r post :
  Forall (λ x, is_Some (sheets_data !! category x)) pre →
  sheets_data !! category r = None →
  organize_loop sheets_data (pre ++ r :: post) = inl (KeyError (category r)).
Proof.
  revert sheets_data.
  induction pre as [|x pre IH]; intros sheets_data Hpre Hr; cbn.
  - unfold organize_step. by rewrite Hr.
  - apply Forall_cons in Hpre as [[rows Hx] Hpre].
    unfold organize_step. rewrite Hx. apply IH.
    + eapply Forall_impl; [done |]. cbn. intros y Hy.
      rewrite lookup_insert. by case_decide.
    + rewrite lookup_insert_ne; [done |]. intros Heq. congruence.
Qed.

(** With every category a key of the dict the loop returns, and each
    bucket has grown by the rows of its records, in their order. *)
Lemma organize_loop_returns sheets_data strings_data :
  Forall (λ x, is_Some (sheets_data !! category x)) strings_data →
  ∃ sheets_data',
    organize_loop sheets_data strings_data = inr sheets_data'
    ∧ ∀ c, sheets_data' !! c
           = (λ rows, rows ++ (row_of <$>
                       List.filter (λ x, bool_decide (category x = c))
                                   strings_data))
             <$> sheets_data !! c.
Proof.
  revert sheets_data.
  induction strings_data as [|x ls IH]; intros sheets_data Hall; cbn.
  - exists sheets_data. split; [done |]. intros c.
    destruct (sheets_data !! c); cbn; [| done]. by rewrite app_nil_r.
  - apply Forall_cons in Hall as [[rows Hx] Hls].
    unfold organize_step. rewrite Hx.
    destruct (IH (<[category x := rows ++ [row_of x]]> sheets_data))
      as (m' & -> & Hm').
    + eapply Forall_impl; [done |]. cbn. intros y Hy.
      rewrite lookup_insert. by case_decide.
    + exists m'. split; [done |]. intros c. rewrite Hm'.
      case_bool_decide as Hc.
      * subst c. rewrite lookup_insert_eq, Hx. cbn.
        by rewrite <- app_assoc.
      * by rewrite lookup_insert_ne.
Qed.

End OrganizeFacts.

(** * The claims *)

(** ** Grouping *)

(** With every category one of the twelve, the call returns the twelve
    buckets, each holding the rows of its records in input order. *)
Lemma organize_by_sheets_known_categories strings_data :
  Forall (λ x, category x ∈ category_order) strings_data →
  ∃ sheets_data,
    organize_by_sheets strings_data = inr sheets_data
    ∧ ∀ c, sheets_data !! c
           = if decide (c ∈ category_order)
             then Some (row_of <$> List.filter
                          (λ x, bool_decide (category x = c)) strings_data)
             else None.
Proof.
  intros Hall. unfold organize_by_sheets.
  destruct (organize_loop_returns empty_sheets strings_data)
    as (sheets_data & -> & Hlookup).
  - eapply Forall_impl; [done |]. cbn. intros x Hx.
    by rewrite empty_sheets_lookup, decide_True.
  - exists sheets_data. split; [done |]. intros c.
    rewrite Hlookup, empty_sheets_lookup. by case_decide.
Qed.

(** C1, as amended: on an input that holds a record whose category is not
    one of the twelve fixed categories, [organize_by_sheets] raises
    [KeyError] with the category of the first such record and returns no
    mapping. *)
Theorem organize_by_sheets_unknown_category pre r post :
  Forall (λ x, category x ∈ category_order) pre →
  category r ∉ category_order →
  organize_by_sheets (pre ++ r :: post) = inl (KeyError (category r)).
Proof.
  intros Hpre Hr. apply organize_loop_raises.
  - eapply Forall_impl; [done |]. cbn. intros x Hx.
    by rewrite empty_sheets_lookup, decide_True.
  - by rewrite empty_sheets_lookup, decide_False.
Qed.

Lemma organize_by_sheets_unknown_category_witness :
  Forall (λ x, category x ∈ category_order) login_records
  ∧ (category onboarding_record ∉ category_order)
  ∧ organize_by_sheets (login_records ++ onboarding_record :: login_records)
    = inl (KeyError "Onboarding").
Proof.
  assert (H1 : Forall (λ x, category x ∈ category_order) login_records)
    by (apply (bool_decide_unpack _); vm_compute; exact I).
  assert (H2 : category onboarding_record ∉ category_order)
    by (apply (bool_decide_unpack _); vm_compute; exact I).
  split; [exact H1 |]. split; [exact H2 |].
  exact (organize_by_sheets_unknown_category
           login_records onboarding_record login_records H1 H2).
Defined.

(** C1, as stated, fails: a lone record of category "Onboarding" is not
    left out of a returned mapping, the call raises and returns none. *)
Lemma organize_by_sheets_onboarding_raises :
  organize_by_sheets [onboarding_record] = inl (KeyError "Onboarding")
  ∧ ¬ ∃ sheets_data, organize_by_sheets [onboarding_record] = inr sheets_data.
Proof.
  assert (H : organize_by_sheets [onboarding_record]
              = inl (KeyError "Onboarding")) by (vm_compute; reflexivity).
  split; [done |]. intros [sheets_data Hret]. congruence.
Qed.

(** ** Classifier *)

(** C2: [generate_excel.py] compares its keywords as written with the
    lowercased text, so the keyword "Map" never matches: "View Map" holds
    it up to case and is accepted, where [generate_excel_simple.py], which
    lowercases the keyword too, rejects it.  "firebase_user_id" is rejected
    by both. *)
Theorem excel_misses_capitalised_keyword :
  "Map" ∈ generate_excel.technical_keywords
  ∧ occurs_ci "Map" "View Map"
  ∧ generate_excel._is_technical_string "View Map" = false
  ∧ generate_excel_simple._is_technical_string "View Map" = true
  ∧ generate_excel._is_technical_string "firebase_user_id" = true
  ∧ generate_excel_simple._is_technical_string "firebase_user_id" = true.
Proof.
  split; [apply (bool_decide_unpack _); by vm_compute |].
  split; [by exists "View ", "Map", "" |].
  by vm_compute.
Qed.

(** C6, as amended: a text of letters and spaces with at least one space
    and at least three characters, in which no keyword of the script's
    block-list occurs up to case, and which for
    [generate_excel_simple.py] is not all-uppercase and shorter than ten
    characters, is accepted. *)
Theorem sentence_without_keyword_accepted (s : script) txt :
  PyStr.all letter_or_space txt = true →
  PyStr.any (Ascii.eqb " ") txt = true →
  (3 ≤ PyStr.len txt)%nat →
  (∀ tok, tok ∈ keywords s → ¬ occurs_ci tok txt) →
  (s = simple →
   (PyStr.isupper txt && bool_decide (PyStr.len txt < 10)) = false) →
  classifier s txt = false.
Proof.
  intros Hletters Hspace%space_is_whitespace Hlen Hno Hupper.
  pose proof (keyword_rule_silent s txt Hno) as Hrule1.
  pose proof (no_underscore_count txt Hletters) as Hcount.
  destruct s; cbn [classifier];
    [unfold generate_excel._is_technical_string
    |unfold generate_excel_simple._is_technical_string];
    cbv zeta; rewrite Hrule1, Hspace, Hcount, ?andb_false_r;
    rewrite (bool_decide_eq_false_2 (PyStr.len txt < 3)) by lia;
    cbn [andb negb]; [done |].
  by rewrite Hupper.
Qed.

Lemma sentence_without_keyword_accepted_witness :
  PyStr.all letter_or_space "Welcome Back" = true
  ∧ PyStr.any (Ascii.eqb " ") "Welcome Back" = true
  ∧ (3 ≤ PyStr.len "Welcome Back")%nat
  ∧ (∀ tok, tok ∈ keywords simple → ¬ occurs_ci tok "Welcome Back")
  ∧ (simple = simple →
     (PyStr.isupper "Welcome Back"
      && bool_decide (PyStr.len "Welcome Back" < 10)) = false)
  ∧ classifier simple "Welcome Back" = false.
Proof.
  assert (H1 : PyStr.all letter_or_space "Welcome Back" = true)
    by (vm_compute; reflexivity).
  assert (H2 : PyStr.any (Ascii.eqb " ") "Welcome Back" = true)
    by (vm_compute; reflexivity).
  assert (H3 : (3 ≤ PyStr.len "Welcome Back")%nat) by (vm_compute; lia).
  assert (H4 : ∀ tok, tok ∈ keywords simple → ¬ occurs_ci tok "Welcome Back").
  { apply Forall_forall. apply (bool_decide_unpack _). vm_compute. exact I. }
  assert (H5 : simple = simple →
               (PyStr.isupper "Welcome Back"
                && bool_decide (PyStr.len "Welcome Back" < 10)) = false)
    by (intros _; vm_compute; reflexivity).
  repeat (split; [assumption |]).
  exact (sentence_without_keyword_accepted simple "Welcome Back"
           H1 H2 H3 H4 H5).
Defined.

(** C6, as stated, fails: "Build Your Team" is made of letters and spaces
    and both scripts reject it, for the keyword "build". *)
Lemma build_your_team_rejected :
  PyStr.all letter_or_space "Build Your Team" = true
  ∧ PyStr.any (Ascii.eqb " ") "Build Your Team" = true
  ∧ classifier excel "Build Your Team" = true
  ∧ classifier simple "Build Your Team" = true.
Proof. by vm_compute. Qed.

(** C8: [generate_excel.py] has no all-uppercase rule: "GO BACK" is
    entirely uppercase and seven characters long, and is accepted, where
    [generate_excel_simple.py] rejects it.  "OK" is rejected by both. *)
Theorem excel_accepts_short_uppercase :
  PyStr.isupper "GO BACK" = true
  ∧ PyStr.len "GO BACK" < 10
  ∧ generate_excel._is_technical_string "GO BACK" = false
  ∧ generate_excel_simple._is_technical_string "GO BACK" = true
  ∧ generate_excel._is_technical_string "OK" = true
  ∧ generate_excel_simple._is_technical_string "OK" = true.
Proof.
  split; [by vm_compute |]. split; [vm_compute; lia |]. by vm_compute.
Qed.

(** C9: the camel-case rule of [generate_excel.py] has no length guard:
    "aB" is alphabetic, two characters long, not all-uppercase and free of
    keywords, and is rejected, where [generate_excel_simple.py] accepts
    it. *)
Theorem excel_rejects_short_camel_case :
  (PyStr.len "aB" ≤ 3)%nat
  ∧ PyStr.isalpha "aB" = true
  ∧ PyStr.isupper "aB" = false
  ∧ (∀ tok, tok ∈ keywords excel → ¬ occurs_ci tok "aB")
  ∧ (∀ tok, tok ∈ keywords simple → ¬ occurs_ci tok "aB")
  ∧ generate_excel._is_technical_string "aB" = true
  ∧ generate_excel_simple._is_technical_string "aB" = false.
Proof.
  split; [vm_compute; lia |]. split; [by vm_compute |].
  split; [by vm_compute |].
  split; [apply Forall_forall, (bool_decide_unpack _); by vm_compute |].
  split; [apply Forall_forall, (bool_decide_unpack _); by vm_compute |].
  by vm_compute.
Qed.

(** ** Deduplicator *)

Lemma mixed_records_allocated :
  allocated (load mixed_records).1 (load mixed_records).2.
Proof. apply (bool_decide_unpack _). vm_compute. exact I. Defined.

(** C3, as amended: the call returns; its output denotes one record per
    element, no two of them with equal (lowercased and stripped text,
    category) keys; a group of input records sharing a key contributes
    exactly one record when the classifier accepts the text of at least
    one of them, and none when it rejects them all. *)
Theorem dedup_one_record_per_surviving_key (s : script) h strings_data :
  allocated h strings_data →
  ∃ h' out,
    dedup s h strings_data = Some (h', out)
    ∧ length (records h' out) = length out
    ∧ NoDup (dedup_key <$> records h' out)
    ∧ (∀ l r, l ∈ strings_data → h !! l = Some r →
              classifier s (text r) = false →
              count_key (dedup_key r) (records h' out) = 1)
    ∧ (∀ k, (∀ l r, l ∈ strings_data → h !! l = Some r →
                    dedup_key r = k → classifier s (text r) = true) →
            count_key k (records h' out) = 0).
Proof. rewrite dedup_unfold. apply dedup_keys_unique. Qed.

Lemma dedup_one_record_per_surviving_key_witness :
  allocated (load mixed_records).1 (load mixed_records).2
  ∧ ∃ h' out,
      dedup simple (load mixed_records).1 (load mixed_records).2
      = Some (h', out)
      ∧ length (records h' out) = length out
      ∧ NoDup (dedup_key <$> records h' out)
      ∧ (∀ l r, l ∈ (load mixed_records).2 →
                (load mixed_records).1 !! l = Some r →
                classifier simple (text r) = false →
                count_key (dedup_key r) (records h' out) = 1)
      ∧ (∀ k, (∀ l r, l ∈ (load mixed_records).2 →
                      (load mixed_records).1 !! l = Some r →
                      dedup_key r = k → classifier simple (text r) = true) →
              count_key k (records h' out) = 0).
Proof.
  split; [exact mixed_records_allocated |].
  exact (dedup_one_record_per_surviving_key simple _ _
           mixed_records_allocated).
Defined.

(** C3, as stated, fails: the one record of [identifier_records] forms a
    group of its own, both classifiers reject its text, and the output
    holds no record of that group. *)
Lemma rejected_group_contributes_no_record :
  (load identifier_records).2 = [0]
  ∧ (load identifier_records).1 !! 0
    = Some (mkRecord "firebase_user_id" "AuthService" "Authentication" "")
  ∧ dedup excel (load identifier_records).1 (load identifier_records).2
    = Some ((load identifier_records).1, [])
  ∧ dedup simple (load identifier_records).1 (load identifier_records).2
    = Some ((load identifier_records).1, [])
  ∧ count_key
      (dedup_key (mkRecord "firebase_user_id" "AuthService" "Authentication" ""))
      (records (load identifier_records).1 []) = 0.
Proof. repeat split; vm_compute; reflexivity. Qed.

(** C4: on the two "Login" records the call returns the first object
    alone, with text "Login", empty notes, and the screen context
    "LoginScreen; SplashScreen". *)
Theorem login_records_merged (s : script) :
  ∃ h',
    dedup s (load login_records).1 (load login_records).2 = Some (h', [0])
    ∧ records h' [0]
      = [mkRecord "Login" "LoginScreen; SplashScreen" "Authentication" ""].
Proof. destruct s; eexists; split; vm_compute; reflexivity. Qed.

(** C5: a second call on the output of a first, in the store the first
    left, returns the same list and leaves the store as it is. *)
Theorem dedup_twice (s : script) h strings_data :
  allocated h strings_data →
  ∃ h' out,
    dedup s h strings_data = Some (h', out)
    ∧ dedup s h' out = Some (h', out).
Proof. rewrite dedup_unfold. apply dedup_idempotent. Qed.

Lemma dedup_twice_witness :
  allocated (load mixed_records).1 (load mixed_records).2
  ∧ ∃ h' out,
      dedup excel (load mixed_records).1 (load mixed_records).2
      = Some (h', out)
      ∧ dedup excel h' out = Some (h', out).
Proof.
  split; [exact mixed_records_allocated |].
  exact (dedup_twice excel _ _ mixed_records_allocated).
Defined.

(** C7: the call returns the elements of the input that are the first
    occurrence of their surviving key, in input order: an element is kept
    exactly when the classifier accepts its text and no element before it
    has an accepted text with the same key. *)
Theorem dedup_first_seen_order (s : script) h strings_data :
  allocated h strings_data →
  ∃ h' out,
    dedup s h strings_data = Some (h', out)
    ∧ out = first_occurrences (classifier s) h [] strings_data
    ∧ out `sublist_of` strings_data
    ∧ same_identity h h'.
Proof.
  intros Hall. rewrite dedup_unfold.
  destruct (clean_and_deduplicate_strings_spec (classifier s) h strings_data
              Hall) as (h' & out & Hrun & -> & Hid).
  eexists _, _. split; [done |]. split; [done |]. split; [| done].
  apply first_occurrences_sublist.
Qed.

Lemma dedup_first_seen_order_witness :
  allocated (load mixed_records).1 (load mixed_records).2
  ∧ ∃ h' out,
      dedup simple (load mixed_records).1 (load mixed_records).2
      = Some (h', out)
      ∧ out = first_occurrences (classifier simple)
                (load mixed_records).1 [] (load mixed_records).2
      ∧ out `sublist_of` (load mixed_records).2
      ∧ same_identity (load mixed_records).1 h'.
Proof.
  split; [exact mixed_records_allocated |].
  exact (dedup_first_seen_order simple _ _ mixed_records_allocated).
Defined.

(** The selection on [mixed_records]: the objects 1 and 4, with the
    contexts of the later spellings merged in. *)
Example mixed_records_deduplicated (s : script) :
  ∃ h',
    dedup s (load mixed_records).1 (load mixed_records).2 = Some (h', [1; 4])
    ∧ records h' [1; 4]
      = [ mkRecord "Login" "LoginScreen; SplashScreen" "Authentication" "";
          mkRecord "Are you sure?" "DeleteDialog; LogoutDialog"
            "Dialogs & Popups" "" ].
Proof. destruct s; eexists; split; vm_compute; reflexivity. Qed.

(** C10: both classifiers reject the empty string, and the call returns no
    object whose text is empty. *)
Theorem empty_text_dropped (s : script) h strings_data :
  allocated h strings_data →
  classifier s "" = true
  ∧ ∃ h' out,
      dedup s h strings_data = Some (h', out)
      ∧ Forall (λ r, text r ≠ "") (records h' out)
      ∧ (∀ l r, l ∈ strings_data → h !! l = Some r → text r = "" → l ∉ out).
Proof.
  intros Hall.
  assert (Hempty : classifier s "" = true) by (by destruct s; vm_compute).
  split; [done |]. rewrite dedup_unfold.
  destruct (dedup_drops_rejected (classifier s) h strings_data Hall)
    as (h' & out & Hrun & Hacc & Hrej).
  exists h', out. split; [done |]. split.
  - eapply Forall_impl; [done |]. cbn. intros r Hr Htext.
    rewrite Htext in Hr. congruence.
  - intros l r _ Hr Htext. apply (Hrej l r Hr). by rewrite Htext.
Qed.

Lemma empty_text_dropped_witness :
  allocated (load mixed_records).1 (load mixed_records).2
  ∧ classifier simple "" = true
  ∧ ∃ h' out,
      dedup simple (load mixed_records).1 (load mixed_records).2
      = Some (h', out)
      ∧ Forall (λ r, text r ≠ "") (records h' out)
      ∧ (∀ l r, l ∈ (load mixed_records).2 →
                (load mixed_records).1 !! l = Some r → text r = "" → l ∉ out).
Proof.
  split; [exact mixed_records_allocated |].
  exact (empty_text_dropped simple _ _ mixed_records_allocated).
Defined.

(** * Beyond the claims: merged contexts *)

Section ContextFacts.
Import PyStr.

Lemma str_app_nil_r (s : string) : (s +:+ "") = s.
Proof.
  induction s as [|c s IH]; [done |].
  change (String c (s +:+ "") = String c s). by rewrite IH.
Qed.

Lemma str_app_assoc (a b c : string) : ((a +:+ b) +:+ c) = (a +:+ (b +:+ c)).
Proof.
  induction a as [|x a IH]; [done |].
  change (String x ((a +:+ b) +:+ c) = String x (a +:+ (b +:+ c))).
  by rewrite IH.
Qed.

Lemma contains_prefix (a b : string) : contains a (a +:+ b) = true.
Proof. apply contains_spec. by exists "", b. Qed.

Lemma contains_refl (a : string) : contains a a = true.
Proof. rewrite <- (str_app_nil_r a) at 2. apply contains_prefix. Qed.

Lemma contains_app_r (a b c : string) :
  contains a b = true → contains a (b +:+ c) = true.
Proof.
  intros (pre & post & ->)%contains_spec. apply contains_spec.
  exists pre, (post +:+ c). by rewrite !str_app_assoc.
Qed.

Lemma contains_app_l (a b c : string) :
  contains a c = true → contains a (b +:+ c) = true.
Proof.
  intros (pre & post & ->)%contains_spec. apply contains_spec.
  exists (b +:+ pre), post. by rewrite !str_app_assoc.
Qed.

Lemma contains_trans (a b c : string) :
  contains a b = true → contains b c = true → contains a c = true.
Proof.
  intros (p1 & q1 & ->)%contains_spec (p2 & q2 & ->)%contains_spec.
  apply contains_spec. exists (p2 +:+ p1), (q1 +:+ q2).
  by rewrite !str_app_assoc.
Qed.

Lemma merge_context_extends acc c :
  ∃ suffix, merge_context acc c = acc +:+ suffix.
Proof.
  unfold merge_context. destruct (contains c acc).
  - exists "". by rewrite str_app_nil_r.
  - by exists ("; " +:+ c).
Qed.

Lemma merge_context_contains acc c :
  contains c (merge_context acc c) = true.
Proof.
  unfold merge_context. destruct (contains c acc) eqn:Hc; [done |].
  apply contains_app_l, contains_app_l, contains_refl.
Qed.

Lemma fold_merge_extends cs c0 :
  ∃ suffix, foldl merge_context c0 cs = c0 +:+ suffix.
Proof.
  revert c0. induction cs as [|c cs IH]; intros c0; cbn.
  - exists "". by rewrite str_app_nil_r.
  - destruct (IH (merge_context c0 c)) as [s1 ->].
    destruct (merge_context_extends c0 c) as [s2 ->].
    exists (s2 +:+ s1). by rewrite str_app_assoc.
Qed.

Lemma fold_merge_keeps cs c0 c :
  contains c c0 = true → contains c (foldl merge_context c0 cs) = true.
Proof.
  intros Hc. destruct (fold_merge_extends cs c0) as [suffix ->].
  by apply contains_app_r.
Qed.

(** Every context of a group is a substring of the folded context. *)
Lemma fold_merge_contains cs c0 c :
  c ∈ c0 :: cs → contains c (foldl merge_context c0 cs) = true.
Proof.
  revert c0. induction cs as [|c1 cs IH]; intros c0.
  - intros ->%list_elem_of_singleton. apply contains_refl.
  - intros [-> | Hin]%elem_of_cons; cbn.
    + apply fold_merge_keeps.
      destruct (merge_context_extends c0 c1) as [suffix ->].
      apply contains_prefix.
    + apply elem_of_cons in Hin as [-> | Hin].
      * apply fold_merge_keeps, merge_context_contains.
      * apply IH. by right.
Qed.

Lemma set_screenContext_same r : set_screenContext (screenContext r) r = r.
Proof. by destruct r. Qed.

Lemma set_screenContext_twice c1 c2 r :
  set_screenContext c2 (set_screenContext c1 r) = set_screenContext c2 r.
Proof. done. Qed.

End ContextFacts.

Section GroupFacts.

Variable tech : string → bool.

Lemma group_contexts_app h k xs ys :
  group_contexts tech h k (xs ++ ys)
  = group_contexts tech h k xs ++ group_contexts tech h k ys.
Proof. apply omap_app. Qed.

(** The group of a key that no accepted element carries is empty. *)
Lemma group_contexts_nil h k ls :
  k ∉ omap (surviving_key tech h) ls → group_contexts tech h k ls = [].
Proof.
  induction ls as [|l ls IH]; [done |]. unfold group_contexts in *. cbn.
  unfold surviving_key at 1. destruct (h !! l) as [r|]; cbn; [| done].
  destruct (tech (text r)); [done |]. rewrite not_elem_of_cons.
  intros [Hk Hrest]. by rewrite bool_decide_eq_false_2, IH.
Qed.

(** The group contribution of one element. *)
Lemma group_contexts_singleton h k l r :
  h !! l = Some r →
  group_contexts tech h k [l]
  = if tech (text r) then []
    else if bool_decide (dedup_key r = k) then [screenContext r] else [].
Proof.
  intros Hr. unfold group_contexts. cbn. rewrite Hr. cbn.
  destruct (tech (text r)); [done |]. by case_bool_decide.
Qed.

Lemma group_contexts_member h k ls l r :
  l ∈ ls → h !! l = Some r → tech (text r) = false → dedup_key r = k →
  screenContext r ∈ group_contexts tech h k ls.
Proof.
  intros Hl Hr Htech Hk. apply list_elem_of_omap. exists l.
  split; [done |]. rewrite Hr. cbn. by rewrite Htech, bool_decide_eq_true_2.
Qed.

(** With pairwise distinct surviving keys a group has at most one
    context. *)
Lemma group_contexts_distinct h k ls :
  NoDup (omap (surviving_key tech h) ls) →
  (length (group_contexts tech h k ls) ≤ 1)%nat.
Proof.
  induction ls as [|l ls IH]; [cbn; lia |]. intros Hnd.
  change (l :: ls) with ([l] ++ ls).
  rewrite group_contexts_app, length_app.
  cbn in Hnd. unfold surviving_key at 1 in Hnd.
  destruct (h !! l) as [r|] eqn:Hl; cbn in Hnd.
  - rewrite (group_contexts_singleton _ _ _ _ Hl).
    destruct (tech (text r)); [by apply IH |].
    apply NoDup_cons in Hnd as [Hnew Hnd].
    case_bool_decide as Hk; [| by apply IH]. subst k.
    rewrite (group_contexts_nil _ _ ls) by done. cbn. lia.
  - unfold group_contexts at 1. cbn. rewrite Hl. by apply IH.
Qed.

End GroupFacts.

Section ContextLoop.

Variable tech : string → bool.

Lemma dedup_ctx_inv_init h :
  dedup_ctx_inv tech h [] {| heap := h; seen := ∅; cleaned := [] |}.
Proof.
  split; cbn; [done | by intros l ?%elem_of_nil |].
  intros k e. by rewrite lookup_empty.
Qed.

Lemma surviving_key_accepted h l r :
  h !! l = Some r → tech (text r) = false →
  surviving_key tech h l = Some (dedup_key r).
Proof. intros Hr Htech. unfold surviving_key. rewrite Hr. cbn. by rewrite Htech. Qed.

Lemma dedup_step_ctx_inv h0 pre st l st' :
  dedup_inv tech h0 pre st → dedup_ctx_inv tech h0 pre st →
  is_Some (h0 !! l) → dedup_step tech st l = Some st' →
  dedup_ctx_inv tech h0 (pre ++ [l]) st'.
Proof.
  destruct st as [hp sn cl].
  intros [Hheap Hcl Hsound Hcompl] [Hunt Hcs Hmerged] [r0 Hr0].
  cbn in Hheap, Hcl, Hsound, Hcompl, Hunt, Hcs, Hmerged.
  pose proof (Hheap l) as Hl. rewrite Hr0 in Hl.
  destruct (hp !! l) as [r|] eqn:Hr; [| done].
  cbn in Hl. injection Hl as Htext Hcat Hnotes.
  assert (Hkey : dedup_key r = dedup_key r0)
    by (unfold dedup_key; by rewrite Htext, Hcat).
  assert (Hgroup : ∀ k',
    group_contexts tech h0 k' (pre ++ [l])
    = group_contexts tech h0 k' pre
      ++ (if tech (text r0) then []
          else if bool_decide (dedup_key r0 = k')
               then [screenContext r0] else [])).
  { intros k'.
    by rewrite group_contexts_app, (group_contexts_singleton _ _ _ _ _ Hr0). }
  unfold dedup_step. cbn. rewrite Hr. cbn. rewrite Htext, Hkey.
  destruct (tech (text r0)) eqn:Htech.
  { (* rejected by the classifier *)
    intros [= <-]. split; cbn; [done | done |].
    intros k e Hke. destruct (Hmerged k e Hke) as (re & cs & ? & ? & ?).
    exists re, cs. by rewrite Hgroup, app_nil_r. }
  pose proof (surviving_key_accepted _ _ _ Hr0 Htech) as Hsk.
  assert (Hfresh : ∀ e, sn !! dedup_key r0 = Some e → l ≠ e → hp !! l = h0 !! l).
  { intros e Hseen Hne. apply Hunt. intros (k2 & Hk2 & Hsn)%Hcs.
    rewrite Hsk in Hk2. injection Hk2 as <-. congruence. }
  destruct (sn !! dedup_key r0) as [e|] eqn:Hseen.
  - (* key seen: merge into the existing object *)
    destruct (Hsound _ _ Hseen) as [He Hek].
    destruct (Hmerged _ _ Hseen) as (re & cs & Hre & Hgrp & Hcur).
    rewrite Hcur. cbn.
    set (acc := foldl merge_context (screenContext re) cs) in *.
    intros Hstep.
    assert (Hnew : ∃ hp',
      st' = {| heap := hp'; seen := sn; cleaned := cl |}
      ∧ hp' !! e
        = Some (set_screenContext
                  (merge_context acc (screenContext r0)) re)
      ∧ ∀ x, x ≠ e → hp' !! x = hp !! x).
    { destruct (decide (l = e)) as [-> | Hne].
      - (* the element is the existing object itself *)
        assert (r = set_screenContext acc re) as -> by congruence.
        assert (re = r0) as -> by congruence.
        cbn in Hstep. rewrite contains_refl in Hstep.
        injection Hstep as <-. exists hp. split; [done |]. split; [| done].
        rewrite Hcur. unfold merge_context.
        destruct (fold_merge_extends cs (screenContext r0)) as [suffix Hs].
        fold acc in Hs. by rewrite Hs, contains_prefix, <- Hs.
      - assert (r = r0) as ->.
        { pose proof (Hfresh e eq_refl Hne) as Heq. congruence. }
        unfold merge_context.
        destruct (PyStr.contains (screenContext r0) acc).
        + injection Hstep as <-. exists hp. by rewrite Hcur.
        + injection Hstep as <-. eexists. split; [done |]. split.
          * by rewrite lookup_insert_eq.
          * intros x Hx. by rewrite lookup_insert_ne. }
    destruct Hnew as (hp' & -> & Hat & Hother). split; cbn.
    + intros x Hx. rewrite Hother by (by intros ->). by apply Hunt.
    + done.
    + intros k' e' Hke'. destruct (decide (k' = dedup_key r0)) as [-> |].
      * assert (e' = e) as -> by congruence.
        exists re, (cs ++ [screenContext r0]).
        rewrite Hgroup, bool_decide_eq_true_2, Hgrp by done.
        split; [done |]. split; [done |]. by rewrite foldl_app.
      * destruct (Hmerged _ _ Hke') as (re' & cs' & ? & Hgrp' & Hcur').
        exists re', cs'.
        rewrite Hgroup, bool_decide_eq_false_2, app_nil_r by done.
        split; [done |]. split; [done |].
        rewrite Hother; [done |]. intros ->.
        destruct (Hsound _ _ Hke') as [_ Hek']. congruence.
  - (* key unseen: the object is kept as it is *)
    intros [= <-].
    assert (Hnotin : l ∉ cl).
    { intros (k2 & Hk2 & Hsn)%Hcs. rewrite Hsk in Hk2. congruence. }
    assert (r = r0) as -> by (rewrite (Hunt l Hnotin) in Hr; congruence).
    split; cbn.
    + intros x Hx. apply Hunt. intros ?. apply Hx, elem_of_app. by left.
    + intros x [Hx | ->%list_elem_of_singleton]%elem_of_app.
      * destruct (Hcs x Hx) as (k2 & Hk2 & Hsn). exists k2.
        split; [done |]. rewrite lookup_insert_ne; [done |]. congruence.
      * exists (dedup_key r0). by rewrite lookup_insert_eq.
    + intros k' e' Hke'. destruct (decide (k' = dedup_key r0)) as [-> |].
      * rewrite lookup_insert_eq in Hke'. injection Hke' as <-.
        exists r0, []. rewrite Hgroup, bool_decide_eq_true_2 by done.
        rewrite group_contexts_nil.
        { cbn. by rewrite set_screenContext_same. }
        intros [? Hin]%Hcompl. congruence.
      * rewrite lookup_insert_ne in Hke' by done.
        destruct (Hmerged _ _ Hke') as (re' & cs' & ? & Hgrp' & Hcur').
        exists re', cs'.
        by rewrite Hgroup, bool_decide_eq_false_2, app_nil_r.
Qed.

End ContextLoop.

Section ContextResults.

Variable tech : string → bool.

Lemma dedup_loop_ctx_inv h0 ls pre st :
  dedup_inv tech h0 pre st → dedup_ctx_inv tech h0 pre st →
  allocated h0 ls →
  ∃ st', dedup_loop tech st ls = Some st'
         ∧ dedup_inv tech h0 (pre ++ ls) st'
         ∧ dedup_ctx_inv tech h0 (pre ++ ls) st'.
Proof.
  revert pre st. induction ls as [|l ls IH]; intros pre st Hinv Hctx Hall; cbn.
  - exists st. by rewrite app_nil_r.
  - apply Forall_cons in Hall as [Hl Hls].
    destruct (dedup_step_inv tech _ _ _ _ Hinv Hl) as (st1 & Hstep & Hinv1).
    pose proof (dedup_step_ctx_inv tech _ _ _ _ _ Hinv Hctx Hl Hstep) as Hctx1.
    rewrite Hstep. cbn.
    destruct (IH _ _ Hinv1 Hctx1 Hls) as (st' & -> & Hinv' & Hctx').
    exists st'. by rewrite <- app_assoc in Hinv', Hctx'.
Qed.

(** The store a call leaves: objects outside the output are as they were;
    an output object carries the contexts of its group, folded in input
    order; every accepted context is a substring of its group's. *)
Lemma dedup_contexts_spec h strings_data :
  allocated h strings_data →
  ∃ h' out,
    clean_and_deduplicate_strings tech h strings_data = Some (h', out)
    ∧ out = first_occurrences tech h [] strings_data
    ∧ (∀ l, l ∉ out → h' !! l = h !! l)
    ∧ (∀ o, o ∈ out →
         ∃ r0 cs,
           h !! o = Some r0
           ∧ group_contexts tech h (dedup_key r0) strings_data
             = screenContext r0 :: cs
           ∧ h' !! o
             = Some (set_screenContext
                       (foldl merge_context (screenContext r0) cs) r0))
    ∧ (∀ l r, l ∈ strings_data → h !! l = Some r → tech (text r) = false →
         ∃ o r', o ∈ out ∧ h' !! o = Some r'
                 ∧ dedup_key r' = dedup_key r
                 ∧ PyStr.contains (screenContext r) (screenContext r') = true).
Proof.
  intros Hall. unfold clean_and_deduplicate_strings.
  destruct (dedup_loop_ctx_inv h strings_data [] _
              (dedup_inv_init tech h) (dedup_ctx_inv_init tech h) Hall)
    as (st & -> & [Hheap Hcl Hsound Hcompl] & [Hunt Hcs Hmerged]).
  cbn in *. exists (heap st), (cleaned st).
  assert (Hentry : ∀ k e, seen st !! k = Some e →
    ∃ r0 cs, h !! e = Some r0 ∧ k = dedup_key r0
             ∧ group_contexts tech h k strings_data = screenContext r0 :: cs
             ∧ heap st !! e
               = Some (set_screenContext
                         (foldl merge_context (screenContext r0) cs) r0)).
  { intros k e Hke. destruct (Hmerged _ _ Hke) as (r0 & cs & Hr0 & Hgrp & Hcur).
    destruct (Hsound _ _ Hke) as [_ Hek]. unfold surviving_key in Hek.
    rewrite Hr0 in Hek. cbn in Hek. destruct (tech (text r0)); [done |].
    injection Hek as <-. by exists r0, cs. }
  split; [done |]. split; [done |]. split; [done |]. split.
  - intros o (k & Hk & Hko)%Hcs.
    destruct (Hentry _ _ Hko) as (r0 & cs & Hr0 & -> & Hgrp & Hcur).
    by exists r0, cs.
  - intros l r Hl Hr Htech.
    destruct (Hcompl (dedup_key r)) as [e Hke].
    { apply list_elem_of_omap. exists l. split; [done |].
      by apply surviving_key_accepted. }
    destruct (Hentry _ _ Hke) as (r0 & cs & Hr0 & Hk & Hgrp & Hcur).
    destruct (Hsound _ _ Hke) as [He _].
    eexists e, _. split; [done |]. split; [done |]. split.
    + by rewrite Hk.
    + cbn. apply fold_merge_contains. rewrite <- Hgrp.
      by eapply group_contexts_member.
Qed.

(** With pairwise distinct surviving keys every accepted element is a
    first occurrence. *)
Lemma first_occurrences_distinct h before ls :
  NoDup (omap (surviving_key tech h) (before ++ ls)) →
  first_occurrences tech h before ls
  = List.filter (λ l, bool_decide (is_Some (surviving_key tech h l))) ls.
Proof.
  revert before. induction ls as [|l ls IH]; intros before Hnd; cbn; [done |].
  rewrite (IH (before ++ [l])) by (rewrite <- app_assoc; exact Hnd).
  destruct (surviving_key tech h l) as [k|] eqn:Hl.
  - rewrite (bool_decide_eq_true_2 (is_Some (Some k))) by done.
    rewrite bool_decide_eq_false_2; [done |].
    rewrite omap_app in Hnd. cbn in Hnd. rewrite Hl in Hnd.
    apply NoDup_app in Hnd as (_ & Hdisj & _). intros Hin.
    apply (Hdisj k Hin). by left.
  - rewrite bool_decide_eq_false_2; [done |]. by intros [? ?].
Qed.

(** The surviving keys of the output are those of the input, once each. *)
Lemma output_keys_permutation h strings_data :
  omap (surviving_key tech h) (first_occurrences tech h [] strings_data)
  ≡ₚ remove_dups (omap (surviving_key tech h) strings_data).
Proof.
  apply NoDup_Permutation.
  - apply first_occurrences_keys.
  - apply NoDup_remove_dups.
  - intros k. rewrite elem_of_remove_dups. split.
    + intros (l & Hl & Hk)%list_elem_of_omap. apply list_elem_of_omap.
      exists l. split; [| done].
      eapply elem_of_sublist; [done | apply first_occurrences_sublist].
    + intros Hk.
      by destruct (first_occurrences_complete tech h [] strings_data k Hk)
        as [?%elem_of_nil |].
Qed.

End ContextResults.

(** ** What a call does to the contexts *)

(** X1: the call returns, and each returned object carries the screen
    contexts of the accepted elements of its key, folded in input order by
    [merge_context] from its own context at the call; its text, category
    and notes are untouched. *)
Theorem dedup_output_context_is_group_fold (s : script) h strings_data :
  allocated h strings_data →
  ∃ h' out,
    dedup s h strings_data = Some (h', out)
    ∧ ∀ o, o ∈ out →
        ∃ r0 cs,
          h !! o = Some r0
          ∧ group_contexts (classifier s) h (dedup_key r0) strings_data
            = screenContext r0 :: cs
          ∧ h' !! o
            = Some (set_screenContext
                      (foldl merge_context (screenContext r0) cs) r0).
Proof.
  intros Hall. rewrite dedup_unfold.
  destruct (dedup_contexts_spec (classifier s) h strings_data Hall)
    as (h' & out & Hrun & _ & _ & Hfold & _).
  by exists h', out.
Qed.

Lemma dedup_output_context_is_group_fold_witness :
  allocated (load mixed_records).1 (load mixed_records).2
  ∧ ∃ h' out,
      dedup simple (load mixed_records).1 (load mixed_records).2
      = Some (h', out)
      ∧ ∀ o, o ∈ out →
          ∃ r0 cs,
            (load mixed_records).1 !! o = Some r0
            ∧ group_contexts (classifier simple) (load mixed_records).1
                (dedup_key r0) (load mixed_records).2
              = screenContext r0 :: cs
            ∧ h' !! o
              = Some (set_screenContext
                        (foldl merge_context (screenContext r0) cs) r0).
Proof.
  split; [exact mixed_records_allocated |].
  exact (dedup_output_context_is_group_fold simple _ _
           mixed_records_allocated).
Defined.

(** X2: no accepted context is lost: the screen context an accepted input
    record had at the call is a substring of the screen context of the
    returned record of its key. *)
Theorem dedup_no_context_lost (s : script) h strings_data :
  allocated h strings_data →
  ∃ h' out,
    dedup s h strings_data = Some (h', out)
    ∧ ∀ l r, l ∈ strings_data → h !! l = Some r →
             classifier s (text r) = false →
        ∃ o r', o ∈ out ∧ h' !! o = Some r'
                ∧ dedup_key r' = dedup_key r
                ∧ PyStr.contains (screenContext r) (screenContext r') = true.
Proof.
  intros Hall. rewrite dedup_unfold.
  destruct (dedup_contexts_spec (classifier s) h strings_data Hall)
    as (h' & out & Hrun & _ & _ & _ & Hkept).
  by exists h', out.
Qed.

Lemma dedup_no_context_lost_witness :
  allocated (load mixed_records).1 (load mixed_records).2
  ∧ ∃ h' out,
      dedup excel (load mixed_records).1 (load mixed_records).2
      = Some (h', out)
      ∧ ∀ l r, l ∈ (load mixed_records).2 →
               (load mixed_records).1 !! l = Some r →
               classifier excel (text r) = false →
          ∃ o r', o ∈ out ∧ h' !! o = Some r'
                  ∧ dedup_key r' = dedup_key r
                  ∧ PyStr.contains (screenContext r) (screenContext r')
                    = true.
Proof.
  split; [exact mixed_records_allocated |].
  exact (dedup_no_context_lost excel _ _ mixed_records_allocated).
Defined.

(** X3: the call writes to returned objects only, and only by appending to
    their screen context: an object outside the returned list (rejected,
    or a later duplicate) is in the store as it was, and a returned object
    differs from what it was by a suffix of its screen context at most. *)
Theorem dedup_writes_only_kept_objects (s : script) h strings_data :
  allocated h strings_data →
  ∃ h' out,
    dedup s h strings_data = Some (h', out)
    ∧ (∀ l, l ∉ out → h' !! l = h !! l)
    ∧ (∀ o, o ∈ out →
         ∃ r0 suffix,
           h !! o = Some r0
           ∧ h' !! o
             = Some (set_screenContext (screenContext r0 +:+ suffix) r0)).
Proof.
  intros Hall. rewrite dedup_unfold.
  destruct (dedup_contexts_spec (classifier s) h strings_data Hall)
    as (h' & out & Hrun & _ & Hunt & Hfold & _).
  exists h', out. split; [done |]. split; [done |].
  intros o (r0 & cs & Hr0 & _ & Hcur)%Hfold.
  destruct (fold_merge_extends cs (screenContext r0)) as [suffix Hs].
  exists r0, suffix. by rewrite <- Hs.
Qed.

Lemma dedup_writes_only_kept_objects_witness :
  allocated (load mixed_records).1 (load mixed_records).2
  ∧ ∃ h' out,
      dedup simple (load mixed_records).1 (load mixed_records).2
      = Some (h', out)
      ∧ (∀ l, l ∉ out → h' !! l = (load mixed_records).1 !! l)
      ∧ (∀ o, o ∈ out →
           ∃ r0 suffix,
             (load mixed_records).1 !! o = Some r0
             ∧ h' !! o
               = Some (set_screenContext (screenContext r0 +:+ suffix) r0)).
Proof.
  split; [exact mixed_records_allocated |].
  exact (dedup_writes_only_kept_objects simple _ _ mixed_records_allocated).
Defined.

(** X4: on an input whose accepted elements have pairwise distinct keys
    the call changes no object and returns the accepted elements, in
    input order. *)
Theorem dedup_distinct_keys_unchanged (s : script) h strings_data :
  allocated h strings_data →
  NoDup (omap (surviving_key (classifier s) h) strings_data) →
  dedup s h strings_data
  = Some (h, List.filter
               (λ l, bool_decide (is_Some (surviving_key (classifier s) h l)))
               strings_data).
Proof.
  intros Hall Hnd. rewrite dedup_unfold.
  destruct (dedup_contexts_spec (classifier s) h strings_data Hall)
    as (h' & out & -> & Hout & Hunt & Hfold & _).
  rewrite <- (first_occurrences_distinct (classifier s) h [] strings_data Hnd).
  rewrite <- Hout. do 2 f_equal. apply map_eq. intros l.
  destruct (decide (l ∈ out)) as [Hl | Hl]; [| by apply Hunt].
  destruct (Hfold l Hl) as (r0 & cs & Hr0 & Hgrp & ->).
  pose proof (group_contexts_distinct (classifier s) h (dedup_key r0)
                strings_data Hnd) as Hlen.
  rewrite Hgrp in Hlen. destruct cs; [| cbn in Hlen; lia].
  cbn. by rewrite set_screenContext_same.
Qed.

Lemma dedup_distinct_keys_unchanged_witness :
  allocated (load distinct_records).1 (load distinct_records).2
  ∧ NoDup (omap (surviving_key (classifier simple) (load distinct_records).1)
             (load distinct_records).2)
  ∧ dedup simple (load distinct_records).1 (load distinct_records).2
    = Some ((load distinct_records).1,
            List.filter
              (λ l, bool_decide
                      (is_Some (surviving_key (classifier simple)
                                  (load distinct_records).1 l)))
              (load distinct_records).2).
Proof.
  assert (H1 : allocated (load distinct_records).1 (load distinct_records).2)
    by (apply (bool_decide_unpack _); vm_compute; exact I).
  assert (H2 : NoDup (omap (surviving_key (classifier simple)
                              (load distinct_records).1)
                        (load distinct_records).2))
    by (apply (bool_decide_unpack _); vm_compute; exact I).
  split; [exact H1 |]. split; [exact H2 |].
  exact (dedup_distinct_keys_unchanged simple _ _ H1 H2).
Defined.

(** X5: the call returns as many objects as there are distinct keys among
    the accepted elements of its input, and never more than it was
    given. *)
Theorem dedup_output_length (s : script) h strings_data :
  allocated h strings_data →
  ∃ h' out,
    dedup s h strings_data = Some (h', out)
    ∧ length out
      = length (remove_dups
                  (omap (surviving_key (classifier s) h) strings_data))
    ∧ (length out ≤ length strings_data)%nat.
Proof.
  intros Hall. rewrite dedup_unfold.
  destruct (clean_and_deduplicate_strings_spec (classifier s) h strings_data
              Hall) as (h' & out & Hrun & -> & Hid).
  eexists _, _. split; [done |]. split.
  - rewrite <- (Permutation_length
                  (output_keys_permutation (classifier s) h strings_data)).
    destruct (records_of_survivors (classifier s) h
                (first_occurrences (classifier s) h [] strings_data))
      as (Hkeys & _ & Hlen).
    { apply Forall_forall. intros l Hl.
      by eapply first_occurrences_survive. }
    by rewrite <- Hkeys, length_fmap, Hlen.
  - apply sublist_length, first_occurrences_sublist.
Qed.

Lemma dedup_output_length_witness :
  allocated (load mixed_records).1 (load mixed_records).2
  ∧ ∃ h' out,
      dedup excel (load mixed_records).1 (load mixed_records).2
      = Some (h', out)
      ∧ length out
        = length (remove_dups
                    (omap (surviving_key (classifier excel)
                             (load mixed_records).1)
                       (load mixed_records).2))
      ∧ (length out ≤ length (load mixed_records).2)%nat.
Proof.
  split; [exact mixed_records_allocated |].
  exact (dedup_output_length excel _ _ mixed_records_allocated).
Defined.

(** * Beyond the claims: grouping and the runs *)

Section GroupingFacts.

Lemma category_order_NoDup : NoDup category_order.
Proof. apply (bool_decide_unpack _). by vm_compute. Qed.

Lemma organize_step_keys sheets_data x sheets_data' c :
  organize_step sheets_data x = inr sheets_data' →
  is_Some (sheets_data' !! c) ↔ is_Some (sheets_data !! c).
Proof.
  unfold organize_step.
  destruct (sheets_data !! category x) as [rows|] eqn:Hx; [| done].
  intros [= <-]. rewrite lookup_insert. case_decide; [| done].
  subst c. rewrite Hx. split; eauto.
Qed.

(** The loop returns only if the category of every record is a key. *)
Lemma organize_loop_known sheets_data strings_data sheets_data' :
  organize_loop sheets_data strings_data = inr sheets_data' →
  Forall (λ x, is_Some (sheets_data !! category x)) strings_data.
Proof.
  revert sheets_data.
  induction strings_data as [|x ls IH]; intros sheets_data; cbn; [done |].
  destruct (organize_step sheets_data x) as [e | m1] eqn:Hstep; [done |].
  intros Hrest. constructor.
  - unfold organize_step in Hstep.
    by destruct (sheets_data !! category x); eauto.
  - eapply Forall_impl; [by apply IH |]. cbn. intros y Hy.
    by apply (organize_step_keys _ _ _ _ Hstep).
Qed.

Lemma organize_by_sheets_known strings_data sheets_data :
  organize_by_sheets strings_data = inr sheets_data →
  Forall (λ x, category x ∈ category_order) strings_data.
Proof.
  intros Hrun%organize_loop_known. eapply Forall_impl; [done |]. cbn.
  intros x. rewrite empty_sheets_lookup. case_decide; [done |].
  by intros [? ?].
Qed.


Lemma concat_fmap_nil {A B} (cs : list B) :
  concat ((λ _, @nil A) <$> cs) = [].
Proof. by induction cs. Qed.

Lemma bucket_cons {A} (f : A → string) c x (ls : list A) :
  List.filter (λ y, bool_decide (f y = c)) (x :: ls)
  = if bool_decide (f x = c)
    then x :: List.filter (λ y, bool_decide (f y = c)) ls
    else List.filter (λ y, bool_decide (f y = c)) ls.
Proof. done. Qed.

Lemma buckets_skip {A} (f : A → string) (cs : list string) x (ls : list A) :
  f x ∉ cs →
  (λ c, List.filter (λ y, bool_decide (f y = c)) (x :: ls)) <$> cs
  = (λ c, List.filter (λ y, bool_decide (f y = c)) ls) <$> cs.
Proof.
  induction cs as [|c cs IH]; [done |].
  rewrite not_elem_of_cons. intros [Hc Hcs]. rewrite !fmap_cons, IH by done.
  by rewrite bucket_cons, bool_decide_eq_false_2.
Qed.

Lemma buckets_insert {A} (f : A → string) (cs : list string) x (ls : list A) :
  NoDup cs → f x ∈ cs →
  concat ((λ c, List.filter (λ y, bool_decide (f y = c)) (x :: ls)) <$> cs)
  ≡ₚ x :: concat ((λ c, List.filter (λ y, bool_decide (f y = c)) ls) <$> cs).
Proof.
  induction cs as [|c cs IH]; [by intros _ ?%elem_of_nil |].
  intros [Hc Hnd]%NoDup_cons Hin. rewrite !fmap_cons. cbn [concat].
  rewrite bucket_cons. destruct (decide (f x = c)) as [Heq | Hne].
  - rewrite bool_decide_eq_true_2 by done.
    rewrite buckets_skip by (by rewrite Heq). done.
  - rewrite bool_decide_eq_false_2 by done.
    apply elem_of_cons in Hin as [? | Hin]; [done |].
    rewrite (IH Hnd Hin). by rewrite Permutation_middle.
Qed.

(** Filed by a key from a list without repetition that holds every key in
    use, the buckets together are the input, rearranged. *)
Lemma buckets_permutation {A} (f : A → string) (cs : list string)
    (ls : list A) :
  NoDup cs → Forall (λ x, f x ∈ cs) ls →
  concat ((λ c, List.filter (λ y, bool_decide (f y = c)) ls) <$> cs) ≡ₚ ls.
Proof.
  intros Hnd. induction 1 as [|x ls Hx _ IH].
  - replace (concat _) with (@nil A); [done |].
    symmetry. apply (concat_fmap_nil cs).
  - by rewrite buckets_insert, IH.
Qed.

Lemma omap_total {A B} (f : A → option B) (g : A → B) (l : list A) :
  Forall (λ x, f x = Some (g x)) l → omap f l = g <$> l.
Proof. induction 1 as [|x l Hx _ IH]; cbn; [done |]. by rewrite Hx, IH. Qed.

Lemma concat_fmap_fmap {A B C} (f : B → C) (g : A → list B) (l : list A) :
  concat ((λ x, f <$> g x) <$> l) = f <$> concat (g <$> l).
Proof.
  induction l as [|x l IH]; cbn; [done |]. by rewrite fmap_app, IH.
Qed.

(** The items of the returned dict: the twelve categories in their order,
    each with the rows of its records. *)
Lemma organize_by_sheets_items strings_data sheets_data :
  organize_by_sheets strings_data = inr sheets_data →
  items sheets_data
  = (λ c, (c, row_of <$> List.filter (λ x, bool_decide (category x = c))
                          strings_data)) <$> category_order.
Proof.
  intros Hrun.
  destruct (organize_by_sheets_known_categories strings_data)
    as (m & Hm & Hlookup); [by eapply organize_by_sheets_known |].
  assert (m = sheets_data) as -> by congruence.
  unfold items. apply omap_total, Forall_forall. intros c Hc.
  by rewrite Hlookup, decide_True.
Qed.

Lemma concat_snd_pairs {A B} (g : A → list B) (cs : list A) :
  concat (snd <$> ((λ c, (c, g c)) <$> cs)) = concat (g <$> cs).
Proof. induction cs as [|c cs IH]; [done |]. rewrite !fmap_cons. cbn. by rewrite IH. Qed.

Lemma items_rows_permutation strings_data sheets_data :
  organize_by_sheets strings_data = inr sheets_data →
  concat (snd <$> items sheets_data) ≡ₚ row_of <$> strings_data.
Proof.
  intros Hrun. rewrite (organize_by_sheets_items _ _ Hrun).
  rewrite (concat_snd_pairs
             (λ c, row_of <$> List.filter (λ x, bool_decide (category x = c))
                                strings_data)).
  rewrite (concat_fmap_fmap row_of
             (λ c, List.filter (λ x, bool_decide (category x = c))
                     strings_data)).
  apply fmap_Permutation, buckets_permutation.
  - apply category_order_NoDup.
  - by eapply organize_by_sheets_known.
Qed.

End GroupingFacts.

Section LoadFacts.





End LoadFacts.

Section RunFacts.

Variable tech : string → bool.


End RunFacts.

Section ReportFacts.












End ReportFacts.

Section RunOutcome.

Lemma fmap_fst_pairs {A B} (g : A → B) (cs : list A) :
  fst <$> ((λ c, (c, g c)) <$> cs) = cs.
Proof.
  induction cs as [|c cs IH]; [done |]. rewrite !fmap_cons. cbn.
  by rewrite IH.
Qed.




End RunOutcome.

(** ** Grouping and the runs *)

(** X6: [organize_by_sheets] returns a mapping exactly when the category of
    every record is one of the twelve fixed categories. *)
Theorem organize_by_sheets_returns_iff strings_data :
  (∃ sheets_data, organize_by_sheets strings_data = inr sheets_data)
  ↔ Forall (λ x, category x ∈ category_order) strings_data.
Proof.
  split.
  - intros [sheets_data Hrun]. by eapply organize_by_sheets_known.
  - intros Hall.
    destruct (organize_by_sheets_known_categories _ Hall) as (m & Hm & _).
    by exists m.
Qed.

(** X7: with every category known, the returned dict has the twelve
    categories as keys, in their fixed order, empty buckets included; the
    bucket of a category holds the rows of its records in input order; and
    the buckets together hold every input row once. *)
Theorem organize_by_sheets_partition strings_data :
  Forall (λ x, category x ∈ category_order) strings_data →
  ∃ sheets_data,
    organize_by_sheets strings_data = inr sheets_data
    ∧ fst <$> items sheets_data = category_order
    ∧ (∀ c rows, (c, rows) ∈ items sheets_data →
         rows = row_of <$> List.filter (λ x, bool_decide (category x = c))
                             strings_data)
    ∧ concat (snd <$> items sheets_data) ≡ₚ row_of <$> strings_data.
Proof.
  intros Hall.
  destruct (organize_by_sheets_known_categories _ Hall) as (m & Hm & _).
  exists m. split; [done |].
  pose proof (organize_by_sheets_items _ _ Hm) as Hitems.
  split; [by rewrite Hitems, fmap_fst_pairs |]. split.
  - intros c rows. rewrite Hitems.
    intros (c' & [= -> ->] & _)%list_elem_of_fmap. done.
  - by apply items_rows_permutation.
Qed.

Lemma organize_by_sheets_partition_witness :
  Forall (λ x, category x ∈ category_order) distinct_records
  ∧ ∃ sheets_data,
      organize_by_sheets distinct_records = inr sheets_data
      ∧ fst <$> items sheets_data = category_order
      ∧ (∀ c rows, (c, rows) ∈ items sheets_data →
           rows = row_of <$> List.filter (λ x, bool_decide (category x = c))
                               distinct_records)
      ∧ concat (snd <$> items sheets_data) ≡ₚ row_of <$> distinct_records.
Proof.
  assert (H : Forall (λ x, category x ∈ category_order) distinct_records)
    by (apply (bool_decide_unpack _); vm_compute; exact I).
  split; [exact H |].
  exact (organize_by_sheets_partition distinct_records H).
Defined.






(** * Beyond the claims: names of files and sheets *)

Section DecimalFacts.
Import PyStr.

Lemma all_app p (a b : string) : all p (a +:+ b) = all p a && all p b.
Proof.
  induction a as [|c a IH]; [done |].
  change (p c && all p (a +:+ b) = p c && all p a && all p b).
  by rewrite IH, andb_assoc.
Qed.

Lemma str_app_length (a b : string) :
  String.length (a +:+ b) = (String.length a + String.length b)%nat.
Proof.
  induction a as [|c a IH]; [done |].
  change (S (String.length (a +:+ b)) = S (String.length a + String.length b)).
  by rewrite IH.
Qed.

Lemma pretty_N_char_digit x : between 48 57 (pretty_N_char x) = true.
Proof. unfold pretty_N_char. by repeat case_match. Qed.

Lemma pretty_N_char_nonzero x :
  (0 < x < 10)%N → pretty_N_char x ≠ "0"%char.
Proof.
  intros Hx.
  assert (x = 1 ∨ x = 2 ∨ x = 3 ∨ x = 4 ∨ x = 5 ∨ x = 6
          ∨ x = 7 ∨ x = 8 ∨ x = 9)%N by lia.
  by destruct_or!; subst.
Qed.

(** The digits [pretty_N_go] puts before its accumulator. *)
Lemma pretty_N_go_shape x s :
  ∃ d, pretty_N_go x s = d +:+ s
       ∧ all (between 48 57) d = true
       ∧ (x = 0%N → d = "")
       ∧ ((0 < x)%N → ∃ c d', d = String c d' ∧ c ≠ "0"%char)
       ∧ ((x < 10)%N → (String.length d ≤ 1)%nat)
       ∧ ((10 ≤ x)%N → (2 ≤ String.length d)%nat).
Proof.
  revert s. induction (N.lt_wf_0 x) as [x _ IH]; intros s.
  destruct (decide (x = 0%N)) as [-> | Hx].
  { exists "". rewrite pretty_N_go_0.
    repeat split; intros; cbn; try done; lia. }
  rewrite pretty_N_go_step by lia.
  destruct (IH (x `div` 10)%N) with (s := String (pretty_N_char (x `mod` 10)) s)
    as (d' & -> & Hdigits & Hzero & Hpos & Hsmall & Hbig).
  { apply N.div_lt; lia. }
  exists (d' +:+ String (pretty_N_char (x `mod` 10)) "").
  split; [by rewrite str_app_assoc |].
  split; [rewrite all_app, Hdigits; cbn; by rewrite pretty_N_char_digit |].
  split; [done |].
  destruct (decide (x < 10)%N) as [Hlt | Hge].
  - rewrite Hzero by (apply N.div_small; lia).
    rewrite N.mod_small by lia.
    split; [| split; [intros _; rewrite str_app_length; cbn; lia
                     | intros; lia]].
    intros _. eexists _, _. split; [done |].
    apply pretty_N_char_nonzero. lia.
  - destruct Hpos as (c & d'' & -> & Hc).
    { apply N.div_str_pos. lia. }
    split; [| split; [intros; lia |]].
    + intros _. by exists c, (d'' +:+ String (pretty_N_char (x `mod` 10)) "").
    + intros _. change (2 ≤ S (String.length
                         (d'' +:+ String (pretty_N_char (x `mod` 10)) "")))%nat.
      rewrite str_app_length. cbn. lia.
Qed.

(** The decimal form of a natural number. *)
Lemma pretty_nat_shape (n : nat) :
  ∃ c d, pretty n = String c d
         ∧ all (between 48 57) (String c d) = true
         ∧ ((n < 10)%nat → d = "")
         ∧ ((10 ≤ n)%nat → c ≠ "0"%char ∧ d ≠ "").
Proof.
  assert (Hp : pretty n
               = if decide (N.of_nat n = 0%N) then "0"
                 else pretty_N_go (N.of_nat n) "") by reflexivity.
  rewrite Hp. destruct (decide (N.of_nat n = 0%N)) as [Hz | Hnz].
  { exists "0"%char, "". repeat split; try done; intros; lia. }
  destruct (pretty_N_go_shape (N.of_nat n) "")
    as (d & Hd & Hdigits & _ & Hpos & Hsmall & Hbig).
  rewrite str_app_nil_r in Hd.
  destruct Hpos as (c & d' & -> & Hc); [lia |].
  exists c, d'. split; [done |]. split; [done |]. split.
  - intros Hlt. specialize (Hsmall ltac:(lia)). cbn in Hsmall.
    destruct d'; [done |]. cbn in Hsmall. lia.
  - intros Hge. specialize (Hbig ltac:(lia)). split; [done |].
    intros ->. cbn in Hbig. lia.
Qed.

(** The two shapes of [f'{n:02d}']. *)
Lemma format_02d_cases (n : nat) :
  ((n < 10)%nat
   ∧ ∃ c, pretty n = String c ""
          ∧ format_02d n = String "0" (String c "")
          ∧ between 48 57 c = true)
  ∨ ((10 ≤ n)%nat
     ∧ format_02d n = pretty n
     ∧ all (between 48 57) (pretty n) = true
     ∧ ∃ c d, pretty n = String c d ∧ c ≠ "0"%char).
Proof.
  unfold format_02d. cbv zeta.
  destruct (pretty_nat_shape n) as (c & d & Hp & Hdigits & Hsmall & Hbig).
  rewrite Hp. destruct (decide (n < 10)%nat) as [Hlt | Hge].
  - left. split; [done |]. exists c. rewrite (Hsmall Hlt) in *.
    split; [done |]. rewrite bool_decide_eq_true_2 by (cbn; lia).
    split; [done |]. cbn in Hdigits. by apply andb_true_iff in Hdigits as [? _].
  - right. split; [lia |]. destruct (Hbig ltac:(lia)) as [Hc Hd].
    rewrite bool_decide_eq_false_2
      by (destruct d; [done | cbn; lia]).
    split; [done |]. split; [done |]. by exists c, d.
Qed.

Lemma format_02d_digits n : all (between 48 57) (format_02d n) = true.
Proof.
  destruct (format_02d_cases n)
    as [(_ & c & _ & -> & Hc) | (_ & -> & Hdigits & _)]; [| done].
  cbn. by rewrite Hc.
Qed.

Lemma format_02d_inj n m : format_02d n = format_02d m → n = m.
Proof.
  destruct (format_02d_cases n)
    as [(_ & c & Hpn & -> & _) | (_ & -> & _ & c & d & Hpn & Hc)],
     (format_02d_cases m)
    as [(_ & c' & Hpm & -> & _) | (_ & -> & _ & c' & d' & Hpm & Hc')].
  - intros [= <-]. apply (inj pretty). congruence.
  - rewrite Hpm. intros [= <- _]. done.
  - rewrite Hpn. intros [= -> _]. done.
  - apply (inj pretty).
Qed.

(** Two digit strings followed by an underscore are equal if the whole
    strings are. *)
Lemma digits_before_underscore (a b x y : string) :
  all (between 48 57) a = true → all (between 48 57) b = true →
  a +:+ String "_" x = b +:+ String "_" y → a = b.
Proof.
  revert b. induction a as [|c a IH]; intros [|c' b]; cbn [all].
  - done.
  - intros _ [Hc' _]%andb_true_iff [= <- _]. by vm_compute in Hc'.
  - intros [Hc _]%andb_true_iff _ [= -> _]. by vm_compute in Hc.
  - intros [_ Ha]%andb_true_iff [_ Hb]%andb_true_iff [= -> Heq].
    f_equal. by apply IH.
Qed.

End DecimalFacts.

Section NamingFacts.
Import PyStr.

(** Two category files with the same name have the same number. *)
Lemma csv_filename_count_inj dir i j c c' :
  generate_excel_simple.csv_filename dir i c
  = generate_excel_simple.csv_filename dir j c' → i = j.
Proof.
  unfold generate_excel_simple.csv_filename,
    generate_excel_simple.csv_basename.
  intros H. apply (inj (String.append dir)) in H.
  apply (inj (String.append "/")) in H.
  apply format_02d_inj.
  eapply digits_before_underscore; [apply format_02d_digits.. | exact H].
Qed.

Lemma category_csv_files_counts n sheets_items t :
  t ∈ generate_excel_simple.category_csv_files n sheets_items →
  ∃ i c, (n ≤ i)%nat
         ∧ table_name t
           = generate_excel_simple.csv_filename
               generate_excel_simple.output_dir i c.
Proof.
  revert n. induction sheets_items as [|[c strings] rest IH]; intros n;
    cbn [generate_excel_simple.category_csv_files].
  - by intros ?%elem_of_nil.
  - destruct (nonempty strings).
    + intros [-> | Hin]%elem_of_cons.
      * by exists n, c.
      * destruct (IH _ Hin) as (i & c' & Hi & Hname).
        exists i, c'. split; [lia | done].
    + apply IH.
Qed.

Lemma category_csv_files_NoDup n sheets_items :
  NoDup (table_name <$> generate_excel_simple.category_csv_files n sheets_items).
Proof.
  revert n. induction sheets_items as [|[c strings] rest IH]; intros n;
    cbn [generate_excel_simple.category_csv_files].
  - constructor.
  - destruct (nonempty strings); [| apply IH].
    rewrite fmap_cons. apply NoDup_cons. split; [| apply IH].
    intros (t & Hname & Hin)%list_elem_of_fmap.
    destruct (category_csv_files_counts _ _ _ Hin) as (i & c' & Hi & Hname').
    cbn in Hname. rewrite Hname' in Hname.
    apply csv_filename_count_inj in Hname. lia.
Qed.

Lemma category_csv_files_lookup n sheets_items k t :
  generate_excel_simple.category_csv_files n sheets_items !! k = Some t →
  ∃ c,
    List.filter (λ '(_, strings), nonempty strings) sheets_items !! k
    = Some (c, table_rows t)
    ∧ table_name t
      = generate_excel_simple.csv_filename
          generate_excel_simple.output_dir (n + k) c
    ∧ table_header t = columns.
Proof.
  revert n k. induction sheets_items as [|[c strings] rest IH]; intros n k;
    cbn [generate_excel_simple.category_csv_files List.filter]; [done |].
  destruct (nonempty strings).
  - destruct k as [|k]; cbn.
    + intros [= <-]. exists c. by rewrite Nat.add_0_r.
    + intros (c' & Hk & Hname & Hhead)%IH. exists c'.
      split; [done |]. split; [| done].
      by replace (n + S k)%nat with (S n + k)%nat by lia.
  - apply IH.
Qed.

End NamingFacts.

(** ** Names of files and sheets *)

(** X11: the category files [create_csv_files] writes have pairwise
    distinct names, whatever the categories; the k-th file written (from
    0) is that of the k-th bucket holding data, carries the number k in
    two digits at least, and holds that bucket's rows under the three
    column names.  Empty buckets leave no gap in the numbering. *)
Theorem category_csv_files_numbered sheets_items :
  NoDup (table_name <$> generate_excel_simple.category_csv_files 0 sheets_items)
  ∧ ∀ k t,
      generate_excel_simple.category_csv_files 0 sheets_items !! k = Some t →
      ∃ c,
        List.filter (λ '(_, strings), nonempty strings) sheets_items !! k
        = Some (c, table_rows t)
        ∧ table_name t
          = generate_excel_simple.csv_filename
              generate_excel_simple.output_dir k c
        ∧ table_header t = columns.
Proof.
  split; [apply category_csv_files_NoDup |].
  intros k t Hk. by apply (category_csv_files_lookup 0).
Qed.

Section SheetNameFacts.
Import PyStr.

Lemma replace_char_nil a new : replace (String a "") new "" = "".
Proof. done. Qed.

(** Replacing one character by one character goes character by
    character. *)
Lemma replace_char_cons a b ch s :
  replace (String a "") (String b "") (String ch s)
  = String (if Ascii.eqb a ch then b else ch)
      (replace (String a "") (String b "") s).
Proof.
  unfold replace.
  change (String.eqb (String a "") "") with false. cbv iota.
  cbn [replace_from startswith]. rewrite andb_true_r.
  by destruct (Ascii.eqb a ch).
Qed.

(** Replacing one character by nothing deletes it. *)
Lemma replace_delete_cons a ch s :
  replace (String a "") "" (String ch s)
  = if Ascii.eqb a ch then replace (String a "") "" s
    else String ch (replace (String a "") "" s).
Proof.
  unfold replace.
  change (String.eqb (String a "") "") with false. cbv iota.
  cbn [replace_from startswith]. rewrite andb_true_r.
  by destruct (Ascii.eqb a ch).
Qed.

(** A name without a dot loses exactly its extension. *)
Lemma replace_csv_suffix s :
  all (λ ch, negb (Ascii.eqb "." ch)) s = true →
  replace ".csv" "" (s +:+ ".csv") = s.
Proof.
  unfold replace. change (String.eqb ".csv" "") with false. cbv iota.
  induction s as [|ch s IH]; [done |].
  cbn [all]. intros [Hch Hs]%andb_true_iff.
  apply negb_true_iff in Hch.
  change (String ch s +:+ ".csv") with (String ch (s +:+ ".csv")).
  cbn [replace_from startswith]. rewrite Hch. cbn [andb].
  by rewrite IH.
Qed.

Lemma digit_is_plain d :
  between 48 57 d = true →
  Ascii.eqb "." d = false ∧ Ascii.eqb "_" d = false
  ∧ Ascii.eqb " " d = false ∧ c_isdigit d = true.
Proof. destruct d as [[] [] [] [] [] [] [] []]; by vm_compute. Qed.

(** For at most 99 the number takes exactly two digits. *)
Lemma format_02d_two_digits n :
  (n < 100)%nat →
  ∃ d1 d2, format_02d n = String d1 (String d2 "")
           ∧ between 48 57 d1 = true ∧ between 48 57 d2 = true.
Proof.
  intros Hn.
  assert (Hall : Forall (λ n,
            match format_02d n with
            | String d1 (String d2 EmptyString) =>
                between 48 57 d1 && between 48 57 d2
            | _ => false
            end = true) (seq 0 100))
    by (apply (bool_decide_unpack _); vm_compute; exact I).
  rewrite Forall_forall in Hall. specialize (Hall n).
  destruct (format_02d n) as [|d1 [|d2 [|]]];
    try (by (discriminate Hall; apply elem_of_seq; lia)).
  exists d1, d2. split; [done |]. apply andb_true_iff, Hall, elem_of_seq. lia.
Qed.

(** The two replacements of the file name and the one of the sheet name,
    on a category without underscore or dot. *)
Lemma category_replacements category :
  all (λ ch, negb (Ascii.eqb "_" ch) && negb (Ascii.eqb "." ch)) category
  = true →
  replace "_" " " (replace " " "_" (replace "/" "-" category))
  = replace "/" "-" category
  ∧ all (λ ch, negb (Ascii.eqb "." ch))
      (replace " " "_" (replace "/" "-" category)) = true.
Proof.
  induction category as [|ch s IH]; [done |].
  cbn [all]. intros [[Hu Hd]%andb_true_iff Hs]%andb_true_iff.
  apply negb_true_iff in Hu, Hd. destruct (IH Hs) as [IH1 IH2].
  rewrite !replace_char_cons. cbn [all]. rewrite IH1, IH2.
  destruct (Ascii.eqb_spec "/" ch) as [<- | Hslash]; [done |].
  destruct (Ascii.eqb_spec " " ch) as [<- | Hspace]; [done |].
  by rewrite Hu, Hd.
Qed.

End SheetNameFacts.

(** X12: the sheet name [csv_to_excel.py] derives from the name of a
    category file written by [generate_excel_simple.py] is the category
    with "/" replaced by "-", cut to 31 characters: provided the file
    number is below 100 and the category holds no underscore and no
    dot. *)
Theorem sheet_name_round_trip (n : nat) category :
  (n < 100)%nat →
  PyStr.all (λ ch, negb (Ascii.eqb "_" ch) && negb (Ascii.eqb "." ch))
    category = true →
  csv_to_excel.sheet_name_of (generate_excel_simple.csv_basename n category)
  = PyStr.take 31 (PyStr.replace "/" "-" category).
Proof.
  intros Hn Hcat.
  destruct (format_02d_two_digits n Hn) as (d1 & d2 & Hfmt & Hd1 & Hd2).
  destruct (digit_is_plain d1 Hd1) as (Hdot1 & Hund1 & Hsp1 & Hdig1).
  destruct (digit_is_plain d2 Hd2) as (Hdot2 & Hund2 & Hsp2 & Hdig2).
  destruct (category_replacements category Hcat) as [Hrestore Hnodot].
  unfold csv_to_excel.sheet_name_of, generate_excel_simple.csv_basename.
  rewrite Hfmt.
  set (r := PyStr.replace " " "_" (PyStr.replace "/" "-" category)) in *.
  change (String d1 (String d2 "") +:+ "_" +:+ r +:+ ".csv")
    with (String d1 (String d2 (String "_" r)) +:+ ".csv").
  rewrite replace_csv_suffix
    by (cbn [PyStr.all]; by rewrite Hdot1, Hdot2, Hnodot).
  rewrite !replace_char_cons, Hund1, Hund2, Hrestore.
  cbn [PyStr.take]. rewrite !replace_delete_cons, Hsp1, Hsp2.
  rewrite replace_char_nil.
  unfold PyStr.isdigit. cbn [PyStr.all String.eqb negb andb].
  by rewrite Hdig1, Hdig2.
Qed.

Lemma sheet_name_round_trip_witness :
  (8 < 100)%nat
  ∧ PyStr.all (λ ch, negb (Ascii.eqb "_" ch) && negb (Ascii.eqb "." ch))
      "Subscription/Premium" = true
  ∧ csv_to_excel.sheet_name_of
      (generate_excel_simple.csv_basename 8 "Subscription/Premium")
    = PyStr.take 31 (PyStr.replace "/" "-" "Subscription/Premium").
Proof.
  assert (H1 : (8 < 100)%nat) by lia.
  assert (H2 : PyStr.all
                 (λ ch, negb (Ascii.eqb "_" ch) && negb (Ascii.eqb "." ch))
                 "Subscription/Premium" = true) by (vm_compute; reflexivity).
  split; [exact H1 |]. split; [exact H2 |].
  exact (sheet_name_round_trip 8 "Subscription/Premium" H1 H2).
Defined.

(** * Beyond the claims: csv_to_excel.py *)

(** X13: [main] exits with status 0 exactly when the directory exists and
    a writer whose library imported returns, xlsxwriter being tried
    first; in every other case it exits with status 1. *)
Theorem main_exit_status (env : csv_to_excel.Env) :
  ((csv_to_excel.main env).2 = 0%Z
   ↔ csv_to_excel.dir_exists env = true
     ∧ ((csv_to_excel.HAS_XLSXWRITER env = true
         ∧ csv_to_excel.run_xlsxwriter env = csv_to_excel.returns)
        ∨ (csv_to_excel.HAS_OPENPYXL env = true
           ∧ csv_to_excel.run_openpyxl env = csv_to_excel.returns)))
  ∧ ((csv_to_excel.main env).2 = 0%Z ∨ (csv_to_excel.main env).2 = 1%Z).
Proof.
  destruct env as [[] [] [] [|ex] [|eo]]; cbn;
    intuition (try discriminate; try congruence).
Qed.

(** X14: what [main] calls and says.  The xlsxwriter writer is called
    exactly when the directory exists and xlsxwriter imported; the
    openpyxl writer exactly when, besides, openpyxl imported and the
    xlsxwriter writer was not called or raised.  Success is announced
    exactly on status 0; and every run that finds the directory and ends
    on status 1 says that neither library is installed, also when both
    imported and both writers raised. *)
Theorem main_calls (env : csv_to_excel.Env) :
  (csv_to_excel.call_xlsxwriter ∈ (csv_to_excel.main env).1
   ↔ csv_to_excel.dir_exists env = true
     ∧ csv_to_excel.HAS_XLSXWRITER env = true)
  ∧ (csv_to_excel.call_openpyxl ∈ (csv_to_excel.main env).1
     ↔ csv_to_excel.dir_exists env = true
       ∧ csv_to_excel.HAS_OPENPYXL env = true
       ∧ ¬ (csv_to_excel.HAS_XLSXWRITER env = true
            ∧ csv_to_excel.run_xlsxwriter env = csv_to_excel.returns))
  ∧ (csv_to_excel.say_created ∈ (csv_to_excel.main env).1
     ↔ (csv_to_excel.main env).2 = 0%Z)
  ∧ (csv_to_excel.say_neither_installed ∈ (csv_to_excel.main env).1
     ↔ csv_to_excel.dir_exists env = true
       ∧ (csv_to_excel.main env).2 = 1%Z).
Proof.
  destruct env as [[] [] [] [|ex] [|eo]]; cbn;
    repeat split; intros;
    try (match goal with
         | |- _ ∈ _ => apply (bool_decide_unpack _); vm_compute; exact I
         end);
    try (match goal with
         | H : _ ∈ _ |- _ =>
             apply (bool_decide_pack _) in H; vm_compute in H; destruct H
         end);
    intuition (try discriminate; try congruence).
Qed.

Section WriterFacts.
Import csv_to_excel.

Lemma openpyxl_style_data k v :
  openpyxl_style false (S k) v
  = if bool_decide (k = 0) then header
    else if negb (String.eqb v "") && PyStr.endswith ":" v
         then section else body.
Proof.
  unfold openpyxl_style. destruct k as [|k].
  - done.
  - rewrite (bool_decide_eq_false_2 (S (S k) = 1)) by lia.
    rewrite (bool_decide_eq_false_2 (S k = 0)) by lia.
    rewrite (bool_decide_eq_true_2 (1 < S (S k))) by lia.
    cbn [andb negb]. by destruct (_ && _).
Qed.

Lemma write_cells_as_openpyxl sty k c row :
  write_cells (openpyxl_style false (S k)) (S k) (S c) row
  = as_openpyxl_data <$> write_cells sty k c row.
Proof.
  revert c. induction row as [|v row IH]; intros c; [done |].
  cbn [write_cells]. rewrite fmap_cons, IH. f_equal.
  unfold as_openpyxl_data. cbn [w_row w_col w_value].
  by rewrite openpyxl_style_data.
Qed.

Lemma write_cells_styles (sty : style) k c row :
  Forall (λ w, w_row w = k ∧ w_style w = sty)
    (write_cells (λ _, sty) k c row).
Proof.
  revert c. induction row as [|v row IH]; intros c; cbn [write_cells];
    [done |]. by constructor.
Qed.

Lemma write_cells_placed sty sty' k c row :
  placed_from_1 <$> write_cells sty k c row
  = placed <$> write_cells sty' (S k) (S c) row.
Proof.
  revert c. induction row as [|v row IH]; intros c; [done |].
  cbn [write_cells]. by rewrite !fmap_cons, IH.
Qed.

(** The data sheets of the two writers, row by row from row [k]. *)
Lemma data_rows_agree k rows :
  ∃ ws,
    xlsxwriter_rows false k rows = inr ws
    ∧ openpyxl_rows false (S k) rows = as_openpyxl_data <$> ws
    ∧ Forall (λ w, w_style w = if bool_decide (w_row w = 0)
                               then header else body) ws.
Proof.
  revert k. induction rows as [|row rows IH]; intros k.
  - by exists [].
  - destruct (IH (S k)) as (ws' & Hx & Ho & Hsty).
    cbn [xlsxwriter_rows openpyxl_rows xlsxwriter_row]. rewrite Hx, Ho.
    case_bool_decide as Hk.
    + eexists. split; [done |]. split.
      * by rewrite fmap_app, (write_cells_as_openpyxl (λ _, header)).
      * apply Forall_app. split; [| done].
        eapply Forall_impl; [apply write_cells_styles |].
        cbn. intros w [-> ->]. by rewrite bool_decide_eq_true_2.
    + eexists. split; [done |]. split.
      * by rewrite fmap_app, (write_cells_as_openpyxl (λ _, body)).
      * apply Forall_app. split; [| done].
        eapply Forall_impl; [apply write_cells_styles |].
        cbn. intros w [-> ->]. by rewrite bool_decide_eq_false_2.
Qed.

(** Below the title row the xlsxwriter loop of a summary does not raise,
    and it places what openpyxl places when no section row has more than
    two cells. *)
Lemma summary_rows_agree k rows :
  k ≠ 0 →
  ∃ ws,
    xlsxwriter_rows true k rows = inr ws
    ∧ (Forall (λ row, is_section_row row = true → (length row ≤ 2)%nat) rows →
       placed_from_1 <$> ws = placed <$> openpyxl_rows true (S k) rows).
Proof.
  revert k. induction rows as [|row rows IH]; intros k Hk.
  - by exists [].
  - destruct (IH (S k)) as (ws' & Hx & Ho); [lia |].
    cbn [xlsxwriter_rows openpyxl_rows xlsxwriter_row]. rewrite Hx.
    rewrite (bool_decide_eq_false_2 (k = 0)) by done.
    destruct (is_section_row row) eqn:Hsec.
    + destruct row as [|first [|second rest]]; [done | |].
      * eexists. split; [done |]. intros [_ Hrows]%Forall_cons.
        rewrite !fmap_app, (Ho Hrows). done.
      * eexists. split; [done |]. intros [Hlen Hrows]%Forall_cons.
        specialize (Hlen Hsec). destruct rest; [| cbn in Hlen; lia].
        rewrite !fmap_app, (Ho Hrows). done.
    + eexists. split; [done |]. intros [_ Hrows]%Forall_cons.
      rewrite !fmap_app, (Ho Hrows). f_equal. apply write_cells_placed.
Qed.

End WriterFacts.

(** ** The two writers *)

(** X15: on a data sheet the xlsxwriter loop never raises and the two
    writers place the same values in the same cells (openpyxl counting
    from 1).  The header row is styled as header by both; below it
    xlsxwriter gives every cell the body format, and openpyxl does too,
    except that it styles a cell whose text ends with a colon as a
    section heading. *)
Theorem data_sheet_writers_agree rows :
  ∃ ws,
    csv_to_excel.xlsxwriter_writes false rows = inr ws
    ∧ csv_to_excel.openpyxl_writes false rows = as_openpyxl_data <$> ws
    ∧ Forall (λ w, csv_to_excel.w_style w
                   = if bool_decide (csv_to_excel.w_row w = 0)
                     then csv_to_excel.header else csv_to_excel.body) ws.
Proof. apply data_rows_agree. Qed.

(** X16: on a summary sheet the xlsxwriter loop raises [IndexError]
    exactly when the first row is empty: the title is read with
    [row_data[0]].  The openpyxl loop indexes no row and cannot raise. *)
Theorem summary_xlsxwriter_raises_iff rows :
  csv_to_excel.xlsxwriter_writes true rows = inl csv_to_excel.IndexError
  ↔ ∃ rest, rows = [] :: rest.
Proof.
  unfold csv_to_excel.xlsxwriter_writes. split.
  - destruct rows as [|[|first row] rest]; [done | by eauto |].
    cbn [csv_to_excel.xlsxwriter_rows csv_to_excel.xlsxwriter_row].
    rewrite bool_decide_eq_true_2 by done.
    destruct (summary_rows_agree 1 rest) as (ws & -> & _); [lia |]. done.
  - by intros [rest ->].
Qed.

(** X17: on a summary sheet whose title row has one or two cells and
    whose section rows (first cell ending with a colon) have at most two,
    the xlsxwriter loop returns and places the same values in the same
    cells as the openpyxl loop. *)
Theorem summary_writers_agree first rest :
  first ≠ [] → (length first ≤ 2)%nat →
  Forall (λ row, csv_to_excel.is_section_row row = true →
                 (length row ≤ 2)%nat) rest →
  ∃ ws,
    csv_to_excel.xlsxwriter_writes true (first :: rest) = inr ws
    ∧ placed_from_1 <$> ws
      = placed <$> csv_to_excel.openpyxl_writes true (first :: rest).
Proof.
  intros Hne Hlen Hrest.
  unfold csv_to_excel.xlsxwriter_writes, csv_to_excel.openpyxl_writes.
  cbn [csv_to_excel.xlsxwriter_rows csv_to_excel.openpyxl_rows
         csv_to_excel.xlsxwriter_row].
  rewrite bool_decide_eq_true_2 by done.
  destruct (summary_rows_agree 1 rest) as (ws & -> & Hplaced); [lia |].
  destruct first as [|title [|second more]]; [done | |].
  - eexists. split; [done |]. by rewrite !fmap_app, (Hplaced Hrest).
  - destruct more; [| cbn in Hlen; lia].
    eexists. split; [done |]. by rewrite !fmap_app, (Hplaced Hrest).
Qed.

Lemma summary_writers_agree_witness :
  ["Summary"; ""] ≠ [] ∧ (length ["Summary"; ""] ≤ 2)%nat
  ∧ Forall (λ row, csv_to_excel.is_section_row row = true →
                   (length row ≤ 2)%nat)
      [ ["Total:"; "2"]; ["Category"; "Total"; "Translated"; "Progress %"];
        ["Authentication"; "2"; "0"; "0%"] ]
  ∧ ∃ ws,
      csv_to_excel.xlsxwriter_writes true
        [ ["Summary"; ""]; ["Total:"; "2"];
          ["Category"; "Total"; "Translated"; "Progress %"];
          ["Authentication"; "2"; "0"; "0%"] ] = inr ws
      ∧ placed_from_1 <$> ws
        = placed <$> csv_to_excel.openpyxl_writes true
            [ ["Summary"; ""]; ["Total:"; "2"];
              ["Category"; "Total"; "Translated"; "Progress %"];
              ["Authentication"; "2"; "0"; "0%"] ].
Proof.
  assert (H1 : ["Summary"; ""] ≠ @nil string) by discriminate.
  assert (H2 : (length ["Summary"; ""] ≤ 2)%nat) by (cbn; lia).
  assert (H3 : Forall (λ row, csv_to_excel.is_section_row row = true →
                              (length row ≤ 2)%nat)
                 [ ["Total:"; "2"];
                   ["Category"; "Total"; "Translated"; "Progress %"];
                   ["Authentication"; "2"; "0"; "0%"] ])
    by (apply (bool_decide_unpack _); vm_compute; exact I).
  split; [exact H1 |]. split; [exact H2 |]. split; [exact H3 |].
  exact (summary_writers_agree _ _ H1 H2 H3).
Defined.

(** * Beyond the claims: the classifiers compared, the key *)

Section KeyFacts.
Import PyStr.

Lemma c_lower_isspace c : c_isspace (c_lower c) = c_isspace c.
Proof. by destruct c as [[] [] [] [] [] [] [] []]; vm_compute. Qed.

Lemma lower_whitespace s : all c_isspace (lower s) = all c_isspace s.
Proof.
  induction s as [|c s IH]; [done |]. cbn [lower all].
  by rewrite c_lower_isspace, IH.
Qed.

Lemma lstrip_whitespace (p s : string) :
  all c_isspace p = true → lstrip (p +:+ s) = lstrip s.
Proof.
  induction p as [|c p IH]; [done |]. cbn [all].
  intros [Hc Hp]%andb_true_iff.
  change (String c p +:+ s) with (String c (p +:+ s)).
  cbn [lstrip]. rewrite Hc. by apply IH.
Qed.

Lemma rstrip_only_whitespace (q : string) :
  all c_isspace q = true → rstrip q = "".
Proof.
  induction q as [|c q IH]; [done |]. cbn [all].
  intros [Hc Hq]%andb_true_iff. cbn [rstrip]. by rewrite IH, Hc.
Qed.

Lemma rstrip_whitespace (s q : string) :
  all c_isspace q = true → rstrip (s +:+ q) = rstrip s.
Proof.
  intros Hq. induction s as [|c s IH].
  - by apply rstrip_only_whitespace.
  - change (String c s +:+ q) with (String c (s +:+ q)).
    cbn [rstrip]. by rewrite IH.
Qed.

Lemma strip_whitespace_r (t q : string) :
  all c_isspace q = true → strip (t +:+ q) = strip t.
Proof.
  intros Hq. unfold strip. induction t as [|c t IH].
  - change ("" +:+ q) with q.
    assert (lstrip q = "") as ->; [| done].
    induction q as [|c q IHq]; [done |]. cbn [all] in Hq.
    apply andb_true_iff in Hq as [Hc Hq]. cbn [lstrip]. rewrite Hc. auto.
  - change (String c t +:+ q) with (String c (t +:+ q)). cbn [lstrip].
    destruct (c_isspace c); [done |].
    change (String c (t +:+ q)) with (String c t +:+ q).
    by apply rstrip_whitespace.
Qed.

(** Whitespace around a text does not reach its stripped lowercase
    form. *)
Lemma strip_lower_padding (pad1 pad2 t : string) :
  all c_isspace pad1 = true → all c_isspace pad2 = true →
  strip (lower (pad1 +:+ t +:+ pad2)) = strip (lower t).
Proof.
  intros H1 H2. rewrite !lower_app. unfold strip at 1.
  rewrite lstrip_whitespace by (by rewrite lower_whitespace).
  fold (strip (lower t +:+ lower pad2)).
  apply strip_whitespace_r. by rewrite lower_whitespace.
Qed.

End KeyFacts.

Section ClassifiersCompared.
Import PyStr.

Lemma simple_keywords_extend :
  generate_excel_simple.technical_keywords
  = generate_excel.technical_keywords
    ++ ["BuildContext"; "StatefulWidget"; "StatelessWidget"].
Proof. done. Qed.

Lemma excel_keyword_rule_in_simple txt :
  existsb (λ keyword, contains keyword (lower txt))
    generate_excel.technical_keywords = true →
  existsb (λ keyword, contains (lower keyword) (lower txt))
    generate_excel_simple.technical_keywords = true.
Proof.
  intros (kw & Hin & Hkw)%existsb_exists. apply existsb_exists.
  exists kw. split.
  - rewrite simple_keywords_extend. apply in_or_app. by left.
  - by apply occurs_ci_contains, contains_raw_occurs_ci.
Qed.

End ClassifiersCompared.

(** ** The classifiers compared, the key *)

(** X18: on a text of more than three characters
    [generate_excel_simple.py] rejects whatever [generate_excel.py]
    rejects: every rule of the latter is a rule of the former, the
    camel-case rule under its length guard. *)
Theorem simple_rejects_what_excel_rejects txt :
  (3 < PyStr.len txt)%nat →
  generate_excel._is_technical_string txt = true →
  generate_excel_simple._is_technical_string txt = true.
Proof.
  intros Hlen. unfold generate_excel._is_technical_string,
    generate_excel_simple._is_technical_string. cbv zeta.
  destruct (existsb _ generate_excel.technical_keywords) eqn:Hkw.
  { by rewrite (excel_keyword_rule_in_simple txt Hkw). }
  destruct (existsb _ generate_excel_simple.technical_keywords); [done |].
  rewrite (bool_decide_eq_true_2 (3 < PyStr.len txt)) by done.
  cbn [andb].
  destruct (PyStr.any PyStr.c_isupper (PyStr.tail txt)
            && negb (PyStr.any PyStr.c_isspace txt)); [done |].
  destruct (bool_decide (1 < PyStr.count "_" txt)); [done |].
  by destruct (bool_decide (PyStr.len txt < 3) && negb (PyStr.isalpha txt)).
Qed.

Lemma simple_rejects_what_excel_rejects_witness :
  (3 < PyStr.len "PremiumUser")%nat
  ∧ generate_excel._is_technical_string "PremiumUser" = true
  ∧ generate_excel_simple._is_technical_string "PremiumUser" = true.
Proof.
  assert (H1 : (3 < PyStr.len "PremiumUser")%nat) by (vm_compute; lia).
  assert (H2 : generate_excel._is_technical_string "PremiumUser" = true)
    by (vm_compute; reflexivity).
  split; [exact H1 |]. split; [exact H2 |].
  exact (simple_rejects_what_excel_rejects "PremiumUser" H1 H2).
Defined.

(** X19: the deduplication key ignores case and surrounding whitespace:
    two records of one category whose texts have the same lowercase form,
    one of them padded with whitespace on either side, have the same
    key. *)
Theorem dedup_key_ignores_case_and_padding
    (pad1 pad2 t1 t2 ctx1 ctx2 cat n1 n2 : string) :
  PyStr.all PyStr.c_isspace pad1 = true →
  PyStr.all PyStr.c_isspace pad2 = true →
  PyStr.lower t1 = PyStr.lower t2 →
  dedup_key (mkRecord (pad1 +:+ t1 +:+ pad2) ctx1 cat n1)
  = dedup_key (mkRecord t2 ctx2 cat n2).
Proof.
  intros H1 H2 Ht. unfold dedup_key. cbn [text category].
  by rewrite strip_lower_padding, Ht.
Qed.

Lemma dedup_key_ignores_case_and_padding_witness :
  PyStr.all PyStr.c_isspace "  " = true
  ∧ PyStr.all PyStr.c_isspace " " = true
  ∧ PyStr.lower "LOGIN" = PyStr.lower "Login"
  ∧ dedup_key (mkRecord ("  " +:+ "LOGIN" +:+ " ") "Banner"
                 "Authentication" "")
    = dedup_key (mkRecord "Login" "LoginScreen" "Authentication" "note").
Proof.
  assert (H1 : PyStr.all PyStr.c_isspace "  " = true)
    by (vm_compute; reflexivity).
  assert (H2 : PyStr.all PyStr.c_isspace " " = true)
    by (vm_compute; reflexivity).
  assert (H3 : PyStr.lower "LOGIN" = PyStr.lower "Login")
    by (vm_compute; reflexivity).
  split; [exact H1 |]. split; [exact H2 |]. split; [exact H3 |].
  exact (dedup_key_ignores_case_and_padding
           "  " " " "LOGIN" "Login" "Banner" "LoginScreen"
           "Authentication" "" "note" H1 H2 H3).
Defined.

(** * Beyond the claims: which tables a run writes *)

Section TableNames.








End TableNames.

(** ** Which tables a run writes *)


